(** * The Apache httpd charm: a model of [src/charm.py] and its properties

    The charm is an event-driven controller.  Each handler of the class
    [Charm] is embedded as a computation in a small monad that threads the
    charm's stored state and the outside world, may raise a Python
    exception, and records the observable effects it performs (commands
    spawned, files written, deferral of the event, events emitted).

    Everything the handlers reach through [subprocess], [pathlib], [yaml]
    and [base64] is gathered in the class [Platform]: the development is
    parametric in it, so every statement holds whatever the commands
    answer. *)

From stdpp Require Import base gmap sets list strings pretty.
From Stdlib Require Import ZArith Lia.

#[local] Set Warnings "-clear-no-such-hyp".

(** ** Python values used by the charm *)

(** Exception classes: the five declared at lines 41-58 and the built-in or
    library ones the handlers can let escape. *)
Inductive ExnClass : Set :=
  | ApacheModuleEnableException
  | ApacheModuleDisableException
  | ApacheSiteEnableException
  | ApacheSiteDisableException
  | SystemctlCommandException
  | NotImplementedError
  | ValueError
  | KeyError
  | AttributeError
  | CalledProcessError
  | OSError
  | DecodeError
  | YAMLError.

#[global] Instance ExnClass_eq_dec : EqDecision ExnClass.
Proof. solve_decision. Defined.

(** An exception instance: its class and its message. *)
Record Exn : Set := MkExn { exn_class : ExnClass; exn_msg : string }.

(** [class ModuleState(Enum)], lines 61-71. *)
Inductive ModuleState : Set := Found | NotFound | OffByAdmin | OffByMaintainer.

#[global] Instance ModuleState_eq_dec : EqDecision ModuleState.
Proof. solve_decision. Defined.

(** The value each member is declared with. *)
Definition ModuleState_value (s : ModuleState) : Z :=
  match s with
  | Found => 0
  | NotFound => 1
  | OffByAdmin => 32
  | OffByMaintainer => 33
  end%Z.

(** [ModuleState(v)]: the lookup by value an [Enum] class performs when it is
    called; [None] stands for the [ValueError] it raises. *)
Definition ModuleState_of_value (v : Z) : option ModuleState :=
  if decide (v = 0%Z) then Some Found
  else if decide (v = 1%Z) then Some NotFound
  else if decide (v = 32%Z) then Some OffByAdmin
  else if decide (v = 33%Z) then Some OffByMaintainer
  else None.

(** [pathlib] paths, kept as the sequence of operands of [/]. *)
Inductive Path : Set :=
  | PathOf (s : string)
  | PathJoin (p : Path) (s : string).

Infix "//" := PathJoin (at level 40, left associativity).

(** One entry of the decoded [vhosts] list: a dict in which each of the keys
    may be absent. *)
Record Vhost : Set := MkVhost {
  template : option string;
  port : option Z;
  protocol : option string
}.

(** What a caller may pass as [packages] to [apt_install]. *)
Inductive PyValue : Type :=
  | PyList (l : list string)
  | PyTuple (l : list string)
  | PyStr (s : string)
  | PyInt (z : Z)
  | PyNone
  | PySet (s : gset string).

(** [isinstance(v, collections.abc.Sequence)] *)
Definition is_Sequence (v : PyValue) : bool :=
  match v with
  | PyList _ | PyTuple _ | PyStr _ => true
  | PyInt _ | PyNone | PySet _ => false
  end.

(** The items [list.extend] takes out of a sequence: a string yields its
    characters. *)
Fixpoint chars (s : string) : list string :=
  match s with
  | EmptyString => []
  | String c s' => String c EmptyString :: chars s'
  end.

Definition sequence_items (v : PyValue) : list string :=
  match v with
  | PyList l | PyTuple l => l
  | PyStr s => chars s
  | PyInt _ | PyNone | PySet _ => []
  end.

(** [type(v)] as an f-string prints it. *)
Definition type_repr (v : PyValue) : string :=
  match v with
  | PyList _ => "<class 'list'>"
  | PyTuple _ => "<class 'tuple'>"
  | PyStr _ => "<class 'str'>"
  | PyInt _ => "<class 'int'>"
  | PyNone => "<class 'NoneType'>"
  | PySet _ => "<class 'set'>"
  end.

(** [str.split()] with no argument, on strings whose characters are code
    points below 256: maximal runs of non-blank characters. *)
Definition py_isspace (c : Ascii.ascii) : bool :=
  let n := Ascii.nat_of_ascii c in
  ((9 <=? n) && (n <=? 13) || (28 <=? n) && (n <=? 32)
   || (n =? 133) || (n =? 160))%nat.

Fixpoint split_from (tok : string) (s : string) : list string :=
  match s with
  | EmptyString => if decide (tok = EmptyString) then [] else [tok]
  | String c s' =>
      if py_isspace c
      then (if decide (tok = EmptyString) then split_from EmptyString s'
            else tok :: split_from EmptyString s')
      else split_from (tok +:+ String c EmptyString) s'
  end.

Definition str_split (s : string) : list string := split_from EmptyString s.

(** [a ^ b] on sets, as [collections.abc.Set.__xor__] computes it. *)
Definition set_xor (a b : gset string) : gset string := (a ∖ b) ∪ (b ∖ a).

(** The charm's configuration, [self.framework.model.config]. *)
Record Config : Set := MkConfig { cfg_modules : string; cfg_server_name : string }.

(** The relation event: [event.unit] and the [vhosts] key of the remote
    application's data bag. *)
Record RelationEvent : Set := MkEvent {
  ev_unit : option string;
  ev_vhosts : option string
}.

(** ** Observable effects *)

Inductive Effect : Set :=
  | Spawn (argv : list string)
  | WriteText (file : Path) (data : string)
  | Defer
  | EmitApacheReady.

#[global] Instance Path_eq_dec : EqDecision Path.
Proof. solve_decision. Defined.

#[global] Instance Effect_eq_dec : EqDecision Effect.
Proof. solve_decision. Defined.

(** ** The outside world *)

(** How a spawned command ends: with an exit status, or not at all because
    it could not be started. *)
Inductive ProcStatus : Set := Exited (rc : Z) | NotStarted.

Class Platform (W : Type) : Type := {
  (** [subprocess.call(argv)] *)
  run_process : list string → W → ProcStatus * W;
  (** [Path.write_text(data)]; [false] when the write fails *)
  write_file : Path → string → W → bool * W;
  (** [yaml.safe_load] of the [vhosts] payload *)
  yaml_safe_load : string → option (list Vhost);
  (** [base64.b64decode(t).decode('utf-8')] *)
  b64decode_utf8 : string → option string;
  (** the order in which a [for] loop walks a set *)
  set_iter : gset string → list string;
  set_iter_perm : ∀ X, set_iter X ≡ₚ elements X
}.

(** [StoredState]: an attribute that was never assigned is [None]. *)
Record StoredState : Type := MkStored {
  _current_modules : option (gset string);
  ready : option bool
}.

Inductive UnitStatus : Set := OtherStatus | ActiveStatus.

(** ** The handler monad *)

(** What a handler runs on: the stored state, the unit's status and the
    world outside. *)
Record Machine (W : Type) : Type := MkMachine {
  state : StoredState;
  unit_status : UnitStatus;
  world : W
}.
Arguments MkMachine {W} _ _ _.
Arguments state {W} _.
Arguments unit_status {W} _.
Arguments world {W} _.

(** A finished run: the effects performed, in order, the value returned or
    the exception raised, and the machine it leaves behind. *)
Record Run (W A : Type) : Type := MkRun {
  effects : list Effect;
  result : Exn + A;
  final : Machine W
}.
Arguments MkRun {W A} _ _ _.
Arguments effects {W A} _.
Arguments result {W A} _.
Arguments final {W A} _.

Definition M (W A : Type) : Type := Machine W → Run W A.

Section Monad.

Context {W : Type}.

Definition ret {A} (a : A) : M W A := λ m, MkRun [] (inr a) m.

Definition raise {A} (e : Exn) : M W A := λ m, MkRun [] (inl e) m.

Definition bind {A B} (c : M W A) (k : A → M W B) : M W B := λ m,
  let r := c m in
  match result r with
  | inl e => MkRun (effects r) (inl e) (final r)
  | inr a =>
      let r' := k a (final r) in
      MkRun (effects r ++ effects r') (result r') (final r')
  end.

(** [try: c  except cls: h] *)
Definition try_except {A} (c : M W A) (cls : ExnClass) (h : M W A) : M W A :=
  λ m,
  let r := c m in
  match result r with
  | inl e =>
      if decide (exn_class e = cls)
      then let r' := h (final r) in
           MkRun (effects r ++ effects r') (result r') (final r')
      else r
  | inr _ => r
  end.

Definition perform (e : Effect) : M W unit := λ m, MkRun [e] (inr tt) m.

(** [for x in l: body(x)] *)
Fixpoint for_each {A} (body : A → M W unit) (l : list A) : M W unit :=
  match l with
  | [] => ret tt
  | x :: l' => bind (body x) (λ _, for_each body l')
  end.

End Monad.

Notation "x <- c ;; k" := (bind c (λ x, k))
  (at level 100, c at next level, right associativity, only parsing).
Notation "c ;; k" := (bind c (λ _, k))
  (at level 100, right associativity, only parsing).

(** ** The charm *)

Module Charm.
Section Charm.

Context {W : Type} `{!Platform W}.

Definition HTTPD_SERVICE_NAME : string := "apache2".

Definition SYSTEMCTL_COMMANDS : gset string :=
  {[ "start"; "stop"; "restart"; "reload"; "daemon-reload"; "disable";
     "enable" ]}.

Definition APACHE_CONFIG_DIR : Path := PathOf "/etc/apache2".

(** The double quote character, for the messages that contain one. *)
Definition dquote : string := String (Ascii.ascii_of_nat 34) EmptyString.

(** *** Primitives of the libraries *)

(** [subprocess.call(argv)]: the exit status, or [OSError] when the command
    cannot be started. *)
Definition subprocess_call (argv : list string) : M W Z := λ m,
  match run_process argv (world m) with
  | (Exited rc, w) =>
      MkRun [Spawn argv] (inr rc) (MkMachine (state m) (unit_status m) w)
  | (NotStarted, w) =>
      MkRun [Spawn argv] (inl (MkExn OSError "command could not be started"))
        (MkMachine (state m) (unit_status m) w)
  end.

(** [subprocess.check_call(argv)] *)
Definition subprocess_check_call (argv : list string) : M W unit :=
  rc <- subprocess_call argv;;
  if decide (rc = 0%Z) then ret tt
  else raise (MkExn CalledProcessError
                ("command returned non-zero exit status " +:+ pretty rc)).

(** [file.write_text(data)] *)
Definition write_text (file : Path) (data : string) : M W unit := λ m,
  match write_file file data (world m) with
  | (true, w) =>
      MkRun [WriteText file data] (inr tt)
        (MkMachine (state m) (unit_status m) w)
  | (false, w) =>
      MkRun [WriteText file data] (inl (MkExn OSError "write failed"))
        (MkMachine (state m) (unit_status m) w)
  end.

(** [base64.b64decode(t).decode('utf-8')] *)
Definition b64decode (t : string) : M W string :=
  match b64decode_utf8 t with
  | Some s => ret s
  | None => raise (MkExn DecodeError "invalid base64 or UTF-8 data")
  end.

(** [yaml.safe_load(s)] *)
Definition safe_load (s : string) : M W (list Vhost) :=
  match yaml_safe_load s with
  | Some l => ret l
  | None => raise (MkExn YAMLError "invalid document")
  end.

(** [d[key]] on a dict *)
Definition getitem {A} (key : string) (v : option A) : M W A :=
  match v with
  | Some a => ret a
  | None => raise (MkExn KeyError key)
  end.

(** *** The stored state *)

(** [self.state._current_modules] *)
Definition get_current_modules : M W (gset string) := λ m,
  match _current_modules (state m) with
  | Some s => ret s m
  | None =>
      raise (MkExn AttributeError "attribute '_current_modules' is not stored")
        m
  end.

(** [self.state._current_modules = s] *)
Definition set_current_modules (s : gset string) : M W unit := λ m,
  MkRun [] (inr tt)
    (MkMachine (MkStored (Some s) (ready (state m))) (unit_status m) (world m)).

(** [self.state._current_modules.remove(x)] *)
Definition current_modules_remove (x : string) : M W unit :=
  s <- get_current_modules;;
  if decide (x ∈ s) then set_current_modules (s ∖ {[x]})
  else raise (MkExn KeyError x).

(** [self.state._current_modules.add(x)] *)
Definition current_modules_add (x : string) : M W unit :=
  s <- get_current_modules;;
  set_current_modules (s ∪ {[x]}).

(** [self.state.ready] *)
Definition get_ready : M W bool := λ m,
  match ready (state m) with
  | Some b => ret b m
  | None => raise (MkExn AttributeError "attribute 'ready' is not stored") m
  end.

(** [self.state.ready = b] *)
Definition set_ready (b : bool) : M W unit := λ m,
  MkRun [] (inr tt)
    (MkMachine (MkStored (_current_modules (state m)) (Some b))
       (unit_status m) (world m)).

(** *** Methods of [Charm] *)

(** Lines 146-154. *)
Definition _systemd_unit_command (command name : string) : M W unit :=
  if decide (command ∈ SYSTEMCTL_COMMANDS) then
    rc <- subprocess_call ["systemctl"; command; name];;
    if decide (rc ≠ 0%Z) then
      raise (MkExn SystemctlCommandException
               ("got unexpected return code " +:+ pretty rc +:+
                " while executing " +:+ command +:+ " on unit " +:+ name))
    else ret tt
  else
    raise (MkExn NotImplementedError
             ("usage of systemctl command " +:+ dquote +:+ command +:+ dquote
              +:+ " is not supported by the charm.")).

(** Lines 156-162. *)
Definition _is_systemd_unit_active (name : string) : M W bool :=
  rc <- subprocess_call ["systemctl"; "is-active"; name];;
  ret (if decide (rc ≠ 0%Z) then false else true).

(** Lines 136-137. *)
Definition on_apache_ready : M W unit := λ m,
  MkRun [] (inr tt) (MkMachine (state m) ActiveStatus (world m)).

(** [self.on.apache_ready.emit()]: the charm observes its own event
    (line 94), so the handler runs at once. *)
Definition emit_apache_ready : M W unit :=
  perform EmitApacheReady;;
  on_apache_ready.

(** Lines 139-144. *)
Definition _assess_readiness : M W unit :=
  active <- _is_systemd_unit_active HTTPD_SERVICE_NAME;;
  if active then
    set_ready true;;
    emit_apache_ready
  else
    set_ready false.

(** Lines 184-185. *)
Definition _get_module_state (module_name : string) : M W ModuleState :=
  rc <- subprocess_call ["a2query"; "-m"; module_name];;
  match ModuleState_of_value rc with
  | Some s => ret s
  | None => raise (MkExn ValueError (pretty rc +:+ " is not a valid ModuleState"))
  end.

(** Lines 187-200. *)
Definition _disable_module (module_name : string) : M W unit :=
  module_state <- _get_module_state module_name;;
  if decide (module_state = Found) then
    try_except (subprocess_check_call ["a2dismod"; module_name])
      CalledProcessError
      (raise (MkExn ApacheModuleDisableException
                ("unable to disable apache2 module " +:+ module_name +:+ ".")))
  else if decide (module_state ∈ [OffByAdmin; OffByMaintainer]) then
    ret tt
  else if decide (module_state = NotFound) then
    raise (MkExn ApacheModuleDisableException
             ("module " +:+ module_name +:+ " was not found."))
  else
    raise (MkExn ApacheModuleDisableException
             ("unexpected module " +:+ module_name +:+ " state.")).

(** Lines 202-207. *)
Definition _enable_module (module_name : string) : M W unit :=
  try_except (subprocess_check_call ["a2enmod"; module_name])
    CalledProcessError
    (raise (MkExn ApacheModuleEnableException
              ("unable to enable apache2 module " +:+ module_name +:+ "."))).

(** Lines 209-214. *)
Definition _enable_site (site_name : string) : M W unit :=
  try_except (subprocess_check_call ["a2ensite"; site_name])
    CalledProcessError
    (raise (MkExn ApacheSiteEnableException
              ("unable to enable apache2 site " +:+ site_name +:+ "."))).

(** Lines 216-221. *)
Definition _disable_site (site_name : string) : M W unit :=
  try_except (subprocess_check_call ["a2dissite"; site_name])
    CalledProcessError
    (raise (MkExn ApacheSiteDisableException
              ("unable to disable apache2 site " +:+ site_name +:+ "."))).

(** Lines 223-246. *)
Definition create_vhost (server_name template : string) (port : Z)
    (protocol : option string) : M W string :=
  let protocol :=
    match protocol with
    | None => pretty port
    | Some p => p
    end in
  template <- b64decode template;;
  let vhost_name := server_name +:+ "_" +:+ protocol in
  let vhost_file :=
    APACHE_CONFIG_DIR // "sites-available" // (vhost_name +:+ ".conf") in
  write_text vhost_file template;;
  ret vhost_name.

(** Lines 248-268. *)
Definition apt_install (packages : PyValue) (options : option (list string))
    : M W unit :=
  let options :=
    match options with
    | None => ["--option=Dpkg::Options::=--force-confold"]
    | Some o => o
    end in
  let command :=
    (["apt-get"; "--assume-yes"] ++ options ++ ["install"])%list in
  if is_Sequence packages then
    let command := (command ++ sequence_items packages)%list in
    subprocess_check_call command
  else
    raise (MkExn ValueError
             ("Invalid type was used for the " +:+ dquote +:+ "packages"
              +:+ dquote +:+ " argument: " +:+ type_repr packages
              +:+ " instead of str")).

(** *** Event handlers *)

(** Lines 96-103. *)
Definition on_install : M W unit :=
  set_current_modules ∅;;
  apt_install (PyList ["apache2"]) None;;
  _disable_site "000-default.conf".

(** Lines 105-107. *)
Definition on_start : M W unit :=
  _systemd_unit_command "start" HTTPD_SERVICE_NAME.

(** Lines 109-111. *)
Definition on_stop : M W unit :=
  _systemd_unit_command "stop" HTTPD_SERVICE_NAME.

(** Line 116: [set(config['modules'].split())]. *)
Definition config_modules (config : Config) : gset string :=
  list_to_set (str_split (cfg_modules config)).

(** Lines 122-124: the body of the first loop. *)
Definition disable_step (m : string) : M W unit :=
  _disable_module m;;
  current_modules_remove m.

(** Lines 126-128: the body of the second loop. *)
Definition enable_step (m : string) : M W unit :=
  _enable_module m;;
  current_modules_add m.

(** Lines 122-128: the two loops. *)
Definition toggle_modules (modules_to_disable config_modules : gset string)
    : M W unit :=
  for_each disable_step (set_iter modules_to_disable);;
  for_each enable_step (set_iter config_modules).

(** Lines 113-134. *)
Definition on_config_changed (config : Config) : M W unit :=
  let config_modules := config_modules config in
  current <- get_current_modules;;
  let modules_to_disable := current ∖ config_modules in
  current <- get_current_modules;;
  let changed_modules := set_xor current config_modules in
  toggle_modules modules_to_disable config_modules;;
  (if decide (changed_modules ≠ ∅) then
     _systemd_unit_command "restart" HTTPD_SERVICE_NAME
   else ret tt);;
  _assess_readiness.

(** Lines 179-180: the body of the loop over the decoded vhosts. *)
Definition activate_vhost (config : Config) (vhost : Vhost) : M W unit :=
  let server_name := cfg_server_name config in
  t <- getitem "template" (template vhost);;
  p <- getitem "port" (port vhost);;
  site <- create_vhost server_name t p None;;
  _enable_site site.

(** Lines 164-182. *)
Definition on_vhost_config_relation_changed (config : Config)
    (event : RelationEvent) : M W unit :=
  is_ready <- get_ready;;
  if negb is_ready then perform Defer
  else
    match ev_unit event with
    | None => ret tt
    | Some _ =>
        match ev_vhosts event with
        | None => ret tt
        | Some vhosts_serialized =>
            if decide (vhosts_serialized = EmptyString) then ret tt
            else
              vhosts <- safe_load vhosts_serialized;;
              for_each (activate_vhost config) vhosts;;
              _systemd_unit_command "reload" HTTPD_SERVICE_NAME
        end
    end.

End Charm.
End Charm.

Import Charm.

(** ** Vocabulary of the properties *)

(** The commands the properties name. *)
Definition restart_cmd : Effect :=
  Spawn ["systemctl"; "restart"; HTTPD_SERVICE_NAME].

Definition reload_cmd : Effect :=
  Spawn ["systemctl"; "reload"; HTTPD_SERVICE_NAME].

Definition enable_cmd (module_name : string) : Effect :=
  Spawn ["a2enmod"; module_name].

Definition probe_cmd (module_name : string) : Effect :=
  Spawn ["a2query"; "-m"; module_name].

(** The three exceptions [_disable_module] constructs, lines 194, 198 and
    200. *)
Definition disable_failed (module_name : string) : Exn :=
  MkExn ApacheModuleDisableException
    ("unable to disable apache2 module " +:+ module_name +:+ ".").

Definition not_found (module_name : string) : Exn :=
  MkExn ApacheModuleDisableException
    ("module " +:+ module_name +:+ " was not found.").

Definition unexpected_state (module_name : string) : Exn :=
  MkExn ApacheModuleDisableException
    ("unexpected module " +:+ module_name +:+ " state.").

(** [runs prog e]: [e] is the spawning of the program [prog]. *)
Definition runs (prog : string) (e : Effect) : bool :=
  match e with
  | Spawn (p :: _) => bool_decide (p = prog)
  | _ => false
  end.

Definition is_restart (e : Effect) : bool := bool_decide (e = restart_cmd).

Definition is_reload (e : Effect) : bool := bool_decide (e = reload_cmd).

Definition is_write (e : Effect) : bool :=
  match e with
  | WriteText _ _ => true
  | _ => false
  end.

(** How many effects of a run satisfy a test. *)
Definition count (f : Effect → bool) (l : list Effect) : nat :=
  length (List.filter f l).

(** The file a site is written to, and what activating one site does. *)
Definition vhost_file (site : string) : Path :=
  APACHE_CONFIG_DIR // "sites-available" // (site +:+ ".conf").

Definition site_cmd (site : string) : Effect := Spawn ["a2ensite"; site].

Definition activation (site : string * string) : list Effect :=
  [WriteText (vhost_file site.1) site.2; Spawn ["a2ensite"; site.1]].

Definition disable_cmd (module_name : string) : Effect :=
  Spawn ["a2dismod"; module_name].

Definition is_active_cmd : Effect :=
  Spawn ["systemctl"; "is-active"; HTTPD_SERVICE_NAME].

(** The two commands of [on_install]. *)
Definition install_cmd : Effect :=
  Spawn ["apt-get"; "--assume-yes";
         "--option=Dpkg::Options::=--force-confold"; "install"; "apache2"].

Definition default_site_cmd : Effect := Spawn ["a2dissite"; "000-default.conf"].

(** A string without a blank character, and a string of blank characters
    only. *)
Fixpoint blank_free (s : string) : bool :=
  match s with
  | EmptyString => true
  | String c s' => negb (py_isspace c) && blank_free s'
  end.

Fixpoint all_blank (s : string) : bool :=
  match s with
  | EmptyString => true
  | String c s' => py_isspace c && all_blank s'
  end.

(** A word: what [str.split()] can return as an item. *)
Definition is_word (t : string) : Prop :=
  t ≠ EmptyString ∧ blank_free t = true.

(** [' '.join(l)] *)
Fixpoint join_words (l : list string) : string :=
  match l with
  | [] => EmptyString
  | x :: l' =>
      match l' with
      | [] => x
      | _ :: _ => x +:+ " " +:+ join_words l'
      end
  end.

Section Vocabulary.

Context {W : Type} `{!Platform W}.

(** A computation that leaves the stored state and the unit status alone:
    it can only change the world outside. *)
Definition keeps_state {A} (c : M W A) : Prop :=
  ∀ m, state (final (c m)) = state m ∧
       unit_status (final (c m)) = unit_status m.

(** A computation that leaves the applied module set alone. *)
Definition keeps_modules {A} (c : M W A) : Prop :=
  ∀ m, _current_modules (state (final (c m))) = _current_modules (state m).

(** A computation all of whose effects satisfy [P]. *)
Definition emits (P : Effect → Prop) {A} (c : M W A) : Prop :=
  ∀ m, Forall P (effects (c m)).

(** A computation all of whose exceptions satisfy [P]. *)
Definition raises (P : Exn → Prop) {A} (c : M W A) : Prop :=
  ∀ m e, result (c m) = inl e → P e.

(** The site a decoded vhost entry stands for: its name, made of the server
    name and the port, and the text of its configuration. *)
Definition vhost_site (config : Config) (vhost : Vhost)
    : option (string * string) :=
  match template vhost, port vhost with
  | Some t, Some p =>
      match b64decode_utf8 t with
      | Some text => Some (cfg_server_name config +:+ "_" +:+ pretty p, text)
      | None => None
      end
  | _, _ => None
  end.

(** The modules whose enable command the second loop runs when it starts
    in the world [w]: each module in turn, up to and including the first
    whose command fails, that is, does not exit with status 0 or cannot be
    started. *)
Fixpoint enabled_until_failure (l : list string) (w : W) : list string :=
  match l with
  | [] => []
  | x :: l' =>
      match run_process ["a2enmod"; x] w with
      | (Exited rc, w') =>
          if decide (rc = 0%Z) then x :: enabled_until_failure l' w' else [x]
      | (NotStarted, _) => [x]
      end
  end.

(** Lines 130-134: what the reconciliation pass does once its two loops are
    over, for the applied set [C] read at its start and the desired set
    [D]. *)
Definition after_toggles (C D : gset string) : M W unit :=
  (if decide (set_xor C D ≠ ∅) then
     _systemd_unit_command "restart" HTTPD_SERVICE_NAME
   else ret tt);;
  _assess_readiness.

End Vocabulary.

(** ** A scripted platform

    A world without memory, in which each command, write and decoding
    answers as a fixed script says, and sets are walked in the order of
    [elements].  It provides the concrete runs of the examples. *)

Module Scenario.

Record Script : Type := MkScript {
  exit_status : list string → ProcStatus;
  write_ok : Path → bool;
  documents : string → option (list Vhost);
  decoded : string → option string
}.

#[export] Instance scripted (s : Script) : Platform unit := {|
  run_process argv w := (exit_status s argv, w);
  write_file f d w := (write_ok s f, w);
  yaml_safe_load := documents s;
  b64decode_utf8 := decoded s;
  set_iter := elements;
  set_iter_perm X := reflexivity (elements X)
|}.

(** The payload of the examples: two vhosts, the second with a [protocol]
    key. *)
Definition two_vhosts : list Vhost :=
  [ MkVhost (Some "TGlzdGVuIDgwODA=") (Some 8080%Z) None;
    MkVhost (Some "TGlzdGVuIDQ0Mw==") (Some 443%Z) (Some "https") ].

Definition example_documents (s : string) : option (list Vhost) :=
  if decide (s = "vhosts") then Some two_vhosts else None.

Definition example_decoded (s : string) : option string :=
  if decide (s = "TGlzdGVuIDgwODA=") then Some "Listen 8080"
  else if decide (s = "TGlzdGVuIDQ0Mw==") then Some "Listen 443"
  else None.

(** Every command exits with status 0. *)
Definition all_ok : Script :=
  MkScript (λ _, Exited 0) (λ _, true) example_documents example_decoded.

(** Every command exits with status 0, except the program [prog], which
    exits with [rc]. *)
Definition failing (prog : string) (rc : Z) : Script :=
  MkScript
    (λ argv, match argv with
             | p :: _ => if decide (p = prog) then Exited rc else Exited 0
             | [] => Exited 0
             end)
    (λ _, true) example_documents example_decoded.

(** A machine whose applied module set is [C] and whose readiness flag is
    [r]. *)
Definition machine (C : gset string) (r : option bool) : Machine unit :=
  MkMachine (MkStored (Some C) r) OtherStatus tt.

Definition web : Config := MkConfig "headers rewrite" "web".

Definition peer_event : RelationEvent := MkEvent (Some "vhost/0") (Some "vhosts").

End Scenario.

(** ** Reasoning about runs *)

Section Runs.

Context {W : Type}.

Lemma bind_ok {A B} (c : M W A) (k : A → M W B) m a :
  result (c m) = inr a →
  bind c k m =
    MkRun (effects (c m) ++ effects (k a (final (c m))))
      (result (k a (final (c m)))) (final (k a (final (c m)))).
Proof. intros E. unfold bind. by rewrite E. Qed.

Lemma bind_err {A B} (c : M W A) (k : A → M W B) m e :
  result (c m) = inl e →
  bind c k m = MkRun (effects (c m)) (inl e) (final (c m)).
Proof. intros E. unfold bind. by rewrite E. Qed.

Lemma bind_inr {A B} (c : M W A) (k : A → M W B) m b :
  result (bind c k m) = inr b →
  ∃ a, result (c m) = inr a ∧ result (k a (final (c m))) = inr b.
Proof.
  destruct (result (c m)) as [e|a] eqn:E.
  - rewrite (bind_err _ _ _ _ E). discriminate.
  - rewrite (bind_ok _ _ _ _ E). eauto.
Qed.

Lemma bind_inl {A B} (c : M W A) (k : A → M W B) m e :
  result (bind c k m) = inl e →
  result (c m) = inl e ∨
  ∃ a, result (c m) = inr a ∧ result (k a (final (c m))) = inl e.
Proof.
  destruct (result (c m)) as [e'|a] eqn:E.
  - rewrite (bind_err _ _ _ _ E). simpl. intros [= ->]. by left.
  - rewrite (bind_ok _ _ _ _ E). eauto.
Qed.

Lemma keeps_modules_ret {A} (a : A) : keeps_modules (ret (W:=W) a).
Proof. by intros m. Qed.

Lemma keeps_modules_raise {A} e : keeps_modules (raise (W:=W) (A:=A) e).
Proof. by intros m. Qed.

Lemma keeps_modules_perform e : keeps_modules (perform (W:=W) e).
Proof. by intros m. Qed.

Lemma keeps_modules_bind {A B} (c : M W A) (k : A → M W B) :
  keeps_modules c → (∀ a, keeps_modules (k a)) → keeps_modules (bind c k).
Proof.
  intros Hc Hk m. unfold bind.
  destruct (result (c m)); simpl; [apply Hc|]. by rewrite Hk, Hc.
Qed.

Lemma keeps_modules_try {A} (c h : M W A) cls :
  keeps_modules c → keeps_modules h → keeps_modules (try_except c cls h).
Proof.
  intros Hc Hh m. unfold try_except.
  destruct (result (c m)); [case_decide|]; simpl; rewrite ?Hh; apply Hc.
Qed.

Lemma emits_ret P {A} (a : A) : emits P (ret (W:=W) a).
Proof. intros m. constructor. Qed.

Lemma emits_raise P {A} e : emits P (raise (W:=W) (A:=A) e).
Proof. intros m. constructor. Qed.

Lemma emits_perform (P : Effect → Prop) e : P e → emits P (perform (W:=W) e).
Proof. intros ? m. by repeat constructor. Qed.

Lemma emits_bind P {A B} (c : M W A) (k : A → M W B) :
  emits P c → (∀ a, emits P (k a)) → emits P (bind c k).
Proof.
  intros Hc Hk m. unfold bind.
  destruct (result (c m)); simpl; [apply Hc|].
  apply Forall_app. split; [apply Hc | apply Hk].
Qed.

Lemma emits_try P {A} (c h : M W A) cls :
  emits P c → emits P h → emits P (try_except c cls h).
Proof.
  intros Hc Hh m. unfold try_except.
  destruct (result (c m)); [case_decide|]; simpl; try apply Hc.
  apply Forall_app. split; [apply Hc | apply Hh].
Qed.

Lemma emits_for_each P {A} (body : A → M W unit) l :
  (∀ x, emits P (body x)) → emits P (for_each body l).
Proof.
  intros Hb. induction l as [|x l IH]; simpl.
  - apply emits_ret.
  - apply emits_bind; auto.
Qed.

Lemma raises_ret P {A} (a : A) : raises P (ret (W:=W) a).
Proof. by intros m e. Qed.

Lemma raises_raise (P : Exn → Prop) {A} e : P e → raises P (raise (W:=W) (A:=A) e).
Proof. intros ? m e' [= <-]. done. Qed.

Lemma raises_bind P {A B} (c : M W A) (k : A → M W B) :
  raises P c → (∀ a, raises P (k a)) → raises P (bind c k).
Proof.
  intros Hc Hk m e [E|(a & _ & E)]%bind_inl; [by eapply Hc | by eapply Hk].
Qed.

Lemma raises_try P {A} (c h : M W A) cls :
  raises (λ e, exn_class e ≠ cls → P e) c → raises P h →
  raises P (try_except c cls h).
Proof.
  intros Hc Hh m e. unfold try_except.
  destruct (result (c m)) as [e'|] eqn:E; [|by rewrite E].
  case_decide; simpl.
  - apply Hh.
  - rewrite E. intros [= <-]. by eapply Hc.
Qed.

Lemma raises_for_each P {A} (body : A → M W unit) l :
  (∀ x, raises P (body x)) → raises P (for_each body l).
Proof.
  intros Hb. induction l as [|x l IH]; simpl.
  - apply raises_ret.
  - apply raises_bind; auto.
Qed.

Lemma for_each_cons_ok {A} (body : A → M W unit) x l m :
  result (for_each body (x :: l) m) = inr tt →
  result (body x m) = inr tt ∧
  result (for_each body l (final (body x m))) = inr tt.
Proof. simpl. intros ([] & ? & ?)%bind_inr. done. Qed.

End Runs.

(** ** Facts about the charm's methods *)

Section Methods.

Context {W : Type} `{!Platform W}.

Implicit Types (m : Machine W) (x : string) (C D : gset string).

Lemma elem_of_set_iter x C : x ∈ set_iter C ↔ x ∈ C.
Proof. by rewrite (set_iter_perm C), elem_of_elements. Qed.

Lemma NoDup_set_iter C : NoDup (set_iter C).
Proof. rewrite (set_iter_perm C). apply NoDup_elements. Qed.

Lemma set_iter_empty : set_iter (∅ : gset string) = [].
Proof.
  apply Permutation_nil_r. rewrite (set_iter_perm ∅). by rewrite elements_empty.
Qed.

Lemma list_to_set_set_iter C : list_to_set (set_iter C) = C.
Proof. apply set_eq. intros x. by rewrite elem_of_list_to_set, elem_of_set_iter. Qed.

(** *** What leaves the applied module set alone *)

Lemma keeps_modules_call argv : keeps_modules (subprocess_call (W:=W) argv).
Proof. intros m. unfold subprocess_call. by destruct (run_process _ _) as [[] ?]. Qed.

Lemma keeps_modules_check_call argv :
  keeps_modules (subprocess_check_call (W:=W) argv).
Proof.
  apply keeps_modules_bind; [apply keeps_modules_call|].
  intros rc. case_decide; [apply keeps_modules_ret | apply keeps_modules_raise].
Qed.

Lemma keeps_modules_systemd command name :
  keeps_modules (_systemd_unit_command (W:=W) command name).
Proof.
  unfold _systemd_unit_command. case_decide; [|apply keeps_modules_raise].
  apply keeps_modules_bind; [apply keeps_modules_call|].
  intros rc. case_decide; [apply keeps_modules_raise | apply keeps_modules_ret].
Qed.

Lemma keeps_modules_assess : keeps_modules (_assess_readiness (W:=W)).
Proof.
  apply keeps_modules_bind.
  - apply keeps_modules_bind; [apply keeps_modules_call|].
    intros rc. apply keeps_modules_ret.
  - intros [|]; [|done].
    apply keeps_modules_bind; [done|]. intros _.
    apply keeps_modules_bind; [apply keeps_modules_perform | done].
Qed.

Lemma keeps_modules_get_state x : keeps_modules (_get_module_state (W:=W) x).
Proof.
  apply keeps_modules_bind; [apply keeps_modules_call|].
  intros rc. destruct (ModuleState_of_value rc);
    [apply keeps_modules_ret | apply keeps_modules_raise].
Qed.

Lemma keeps_modules_disable x : keeps_modules (_disable_module (W:=W) x).
Proof.
  apply keeps_modules_bind; [apply keeps_modules_get_state|].
  intros s. repeat case_decide;
    try apply keeps_modules_raise; try apply keeps_modules_ret.
  apply keeps_modules_try;
    [apply keeps_modules_check_call | apply keeps_modules_raise].
Qed.

Lemma keeps_modules_enable x : keeps_modules (_enable_module (W:=W) x).
Proof.
  apply keeps_modules_try;
    [apply keeps_modules_check_call | apply keeps_modules_raise].
Qed.

(** *** The two loops of the reconciliation pass *)

Lemma remove_run x C m :
  _current_modules (state m) = Some C → x ∈ C →
  current_modules_remove x m =
    MkRun [] (inr tt)
      (MkMachine (MkStored (Some (C ∖ {[x]})) (ready (state m)))
         (unit_status m) (world m)).
Proof.
  intros HC Hx. unfold current_modules_remove, bind, get_current_modules.
  rewrite HC. simpl. by rewrite decide_True.
Qed.

Lemma add_run x C m :
  _current_modules (state m) = Some C →
  current_modules_add x m =
    MkRun [] (inr tt)
      (MkMachine (MkStored (Some (C ∪ {[x]})) (ready (state m)))
         (unit_status m) (world m)).
Proof.
  intros HC. unfold current_modules_add, bind, get_current_modules.
  by rewrite HC.
Qed.

Lemma disable_step_ok x C m :
  _current_modules (state m) = Some C →
  result (disable_step x m) = inr tt →
  _current_modules (state (final (disable_step x m))) = Some (C ∖ {[x]}).
Proof.
  intros HC Hok. unfold disable_step in *.
  apply bind_inr in Hok as ([] & E1 & E2).
  rewrite (bind_ok _ _ _ _ E1). simpl.
  pose proof (keeps_modules_disable x m) as Hk. rewrite HC in Hk.
  revert E2. unfold current_modules_remove, bind, get_current_modules.
  rewrite Hk. simpl. by case_decide.
Qed.

Lemma enable_step_ok x C m :
  _current_modules (state m) = Some C →
  result (enable_step x m) = inr tt →
  _current_modules (state (final (enable_step x m))) = Some (C ∪ {[x]}).
Proof.
  intros HC Hok. unfold enable_step in *.
  apply bind_inr in Hok as ([] & E1 & E2).
  rewrite (bind_ok _ _ _ _ E1). simpl.
  pose proof (keeps_modules_enable x m) as Hk. rewrite HC in Hk.
  by rewrite (add_run _ _ _ Hk).
Qed.

Lemma disable_loop_ok l C m :
  _current_modules (state m) = Some C →
  result (for_each disable_step l m) = inr tt →
  _current_modules (state (final (for_each disable_step l m)))
  = Some (C ∖ list_to_set l).
Proof.
  revert C m. induction l as [|x l IH]; intros C m HC Hok.
  - simpl. rewrite HC. f_equal. set_solver.
  - apply for_each_cons_ok in Hok as [E1 E2].
    simpl. rewrite (bind_ok _ _ _ _ E1). simpl.
    rewrite (IH _ _ (disable_step_ok _ _ _ HC E1) E2). f_equal. set_solver.
Qed.

Lemma enable_loop_ok l C m :
  _current_modules (state m) = Some C →
  result (for_each enable_step l m) = inr tt →
  _current_modules (state (final (for_each enable_step l m)))
  = Some (C ∪ list_to_set l).
Proof.
  revert C m. induction l as [|x l IH]; intros C m HC Hok.
  - simpl. rewrite HC. f_equal. set_solver.
  - apply for_each_cons_ok in Hok as [E1 E2].
    simpl. rewrite (bind_ok _ _ _ _ E1). simpl.
    rewrite (IH _ _ (enable_step_ok _ _ _ HC E1) E2). f_equal. set_solver.
Qed.

Lemma toggle_modules_ok C D m :
  _current_modules (state m) = Some C →
  result (toggle_modules (C ∖ D) D m) = inr tt →
  _current_modules (state (final (toggle_modules (C ∖ D) D m))) = Some D.
Proof.
  intros HC Hok. unfold toggle_modules in *.
  apply bind_inr in Hok as ([] & E1 & E2).
  rewrite (bind_ok _ _ _ _ E1). simpl.
  rewrite (enable_loop_ok _ _ _ (disable_loop_ok _ _ _ HC E1) E2).
  rewrite !list_to_set_set_iter. f_equal.
  apply set_eq. intros x. destruct (decide (x ∈ D)); set_solver.
Qed.

Lemma bind_get_current_modules {B} (k : gset string → M W B) C m :
  _current_modules (state m) = Some C →
  bind get_current_modules k m = k C m.
Proof.
  intros HC. unfold bind, get_current_modules. rewrite HC. simpl.
  by destruct (k C m).
Qed.

Lemma on_config_changed_unfold config C m :
  _current_modules (state m) = Some C →
  on_config_changed config m =
    bind (toggle_modules (C ∖ config_modules config) (config_modules config))
      (λ _, after_toggles C (config_modules config)) m.
Proof.
  intros HC. unfold on_config_changed.
  by rewrite !(bind_get_current_modules _ C m HC).
Qed.

Lemma keeps_modules_after_toggles C D : keeps_modules (after_toggles C D).
Proof.
  apply keeps_modules_bind; [|intros; apply keeps_modules_assess].
  case_decide; [apply keeps_modules_systemd | apply keeps_modules_ret].
Qed.

End Methods.

(** ** The reconciliation pass *)

(** C1.  Whatever module set [D] the configuration asks for and whatever set
    was applied before, a reconciliation pass ([on_config_changed]) that
    completes without raising leaves the stored [_current_modules] equal to
    [D] exactly. *)
Theorem reconcile_applies_desired {W : Type} `{!Platform W}
    (config : Config) (m : Machine W) :
  result (on_config_changed config m) = inr tt →
  _current_modules (state (final (on_config_changed config m)))
  = Some (config_modules config).
Proof.
  destruct (_current_modules (state m)) as [C|] eqn:HC.
  - rewrite (on_config_changed_unfold _ _ _ HC).
    intros ([] & E1 & E2)%bind_inr.
    rewrite (bind_ok _ _ _ _ E1). simpl.
    rewrite keeps_modules_after_toggles.
    by apply toggle_modules_ok.
  - unfold on_config_changed, bind, get_current_modules. by rewrite HC.
Qed.

Lemma reconcile_applies_desired_witness :
  let m := Scenario.machine {[ "ssl"; "headers" ]} None in
  let run := on_config_changed (Platform0 := Scenario.scripted Scenario.all_ok)
               Scenario.web m in
  result run = inr tt ∧
  _current_modules (state (final run)) = Some {[ "headers"; "rewrite" ]}.
Proof.
  split; [by vm_compute|].
  etrans; [apply reconcile_applies_desired; by vm_compute | by vm_compute].
Defined.

(** *** The effects of the pass *)

Section PassEffects.

Context {W : Type} `{!Platform W}.

Implicit Types (m : Machine W) (x : string) (C D : gset string).

(** The run of a checked command, and of one whose failure is turned into
    an exception of the charm. *)
Lemma check_call_run argv m :
  subprocess_check_call argv m =
    match run_process argv (world m) with
    | (Exited rc, w) =>
        MkRun [Spawn argv]
          (if decide (rc = 0%Z) then inr tt
           else inl (MkExn CalledProcessError
                       ("command returned non-zero exit status " +:+ pretty rc)))
          (MkMachine (state m) (unit_status m) w)
    | (NotStarted, w) =>
        MkRun [Spawn argv] (inl (MkExn OSError "command could not be started"))
          (MkMachine (state m) (unit_status m) w)
    end.
Proof.
  unfold subprocess_check_call, bind, subprocess_call.
  destruct (run_process _ _) as [[rc|] w]; simpl; [|done].
  by case_decide.
Qed.

Lemma guarded_run argv e m :
  try_except (subprocess_check_call argv) CalledProcessError (raise e) m =
    match run_process argv (world m) with
    | (Exited rc, w) =>
        MkRun [Spawn argv] (if decide (rc = 0%Z) then inr tt else inl e)
          (MkMachine (state m) (unit_status m) w)
    | (NotStarted, w) =>
        MkRun [Spawn argv] (inl (MkExn OSError "command could not be started"))
          (MkMachine (state m) (unit_status m) w)
    end.
Proof.
  unfold try_except. rewrite check_call_run.
  destruct (run_process _ _) as [[rc|] w]; simpl; by repeat case_decide.
Qed.

Lemma guarded_effects argv e m :
  effects
    (try_except (subprocess_check_call argv) CalledProcessError (raise e) m)
  = [Spawn argv].
Proof. rewrite guarded_run. by destruct (run_process _ _) as [[rc|] w]. Qed.

Lemma count_app f (l1 l2 : list Effect) :
  count f (l1 ++ l2) = count f l1 + count f l2.
Proof. unfold count. by rewrite List.filter_app, length_app. Qed.

Lemma filter_none f (l : list Effect) :
  Forall (λ e, f e = false) l → List.filter f l = [].
Proof. induction 1 as [|e l He _ IH]; simpl; [done|]. by rewrite He. Qed.

Lemma filter_all f (l : list Effect) :
  Forall (λ e, f e = true) l → List.filter f l = l.
Proof. induction 1 as [|e l He _ IH]; simpl; [done|]. by rewrite He, IH. Qed.

Lemma count_none f (l : list Effect) :
  Forall (λ e, f e = false) l → count f l = 0.
Proof. intros Hl. unfold count. by rewrite filter_none. Qed.

Lemma emits_call (P : Effect → Prop) argv :
  P (Spawn argv) → emits P (subprocess_call (W:=W) argv).
Proof.
  intros HP m. unfold subprocess_call.
  destruct (run_process _ _) as [[] ?]; by repeat constructor.
Qed.

Lemma emits_check_call (P : Effect → Prop) argv :
  P (Spawn argv) → emits P (subprocess_check_call (W:=W) argv).
Proof.
  intros HP. apply emits_bind; [by apply emits_call|].
  intros rc. case_decide; [apply emits_ret | apply emits_raise].
Qed.

Lemma emits_disable_step (P : Effect → Prop) x :
  P (Spawn ["a2query"; "-m"; x]) → P (Spawn ["a2dismod"; x]) →
  emits P (disable_step (W:=W) x).
Proof.
  intros Hq Hd. apply emits_bind.
  - apply emits_bind.
    + apply emits_bind; [by apply emits_call|].
      intros rc. destruct (ModuleState_of_value rc);
        [apply emits_ret | apply emits_raise].
    + intros s. repeat case_decide;
        try apply emits_raise; try apply emits_ret.
      apply emits_try; [by apply emits_check_call | apply emits_raise].
  - intros _. apply emits_bind.
    + intros m. unfold get_current_modules.
      destruct (_current_modules _); constructor.
    + intros s. case_decide; [|apply emits_raise]. intros m. constructor.
Qed.

Lemma enable_step_effects x m : effects (enable_step x m) = [enable_cmd x].
Proof.
  unfold enable_step, bind.
  pose proof (guarded_effects ["a2enmod"; x]
    (MkExn ApacheModuleEnableException
       ("unable to enable apache2 module " +:+ x +:+ ".")) m) as He.
  fold (_enable_module x) in He.
  destruct (result (_enable_module x m)); simpl; [done|].
  rewrite He. unfold current_modules_add, bind, get_current_modules.
  by destruct (_current_modules _).
Qed.

Lemma enable_loop_effects l m :
  effects (for_each enable_step l m) `prefix_of` map enable_cmd l ∧
  (result (for_each enable_step l m) = inr tt →
   effects (for_each enable_step l m) = map enable_cmd l).
Proof.
  revert m. induction l as [|x l IH]; intros m; simpl.
  - split; [apply prefix_nil | done].
  - destruct (result (enable_step x m)) as [e|[]] eqn:E.
    + rewrite (bind_err _ _ _ _ E). simpl. rewrite enable_step_effects.
      split; [|done]. apply prefix_cons, prefix_nil.
    + rewrite (bind_ok _ _ _ _ E). simpl. rewrite enable_step_effects.
      destruct (IH (final (enable_step x m))) as [IH1 IH2].
      split; [by apply (prefix_cons (enable_cmd x))|].
      intros Hok. simpl. by rewrite IH2.
Qed.

Lemma emits_enable_loop (P : Effect → Prop) l :
  (∀ x, P (enable_cmd x)) → emits P (for_each (W:=W) enable_step l).
Proof.
  intros HP. apply emits_for_each. intros x m.
  rewrite enable_step_effects. by repeat constructor.
Qed.

Lemma emits_toggle_modules (P : Effect → Prop) C D :
  (∀ x, P (Spawn ["a2query"; "-m"; x])) → (∀ x, P (Spawn ["a2dismod"; x])) →
  (∀ x, P (enable_cmd x)) →
  emits P (toggle_modules (W:=W) C D).
Proof.
  intros Hq Hd He. apply emits_bind.
  - apply emits_for_each. intros x. by apply emits_disable_step.
  - intros _. by apply emits_enable_loop.
Qed.

Lemma emits_assess (P : Effect → Prop) :
  P (Spawn ["systemctl"; "is-active"; HTTPD_SERVICE_NAME]) →
  P EmitApacheReady →
  emits P (_assess_readiness (W:=W)).
Proof.
  intros Hq He. apply emits_bind.
  - apply emits_bind; [by apply emits_call | intros; apply emits_ret].
  - intros [|]; [|intros m; constructor].
    apply emits_bind; [intros m; constructor|]. intros _.
    apply emits_bind; [by apply emits_perform | intros _ m; constructor].
Qed.

Lemma systemd_effects command name m :
  command ∈ SYSTEMCTL_COMMANDS →
  effects (_systemd_unit_command command name m)
  = [Spawn ["systemctl"; command; name]].
Proof.
  intros Hc. unfold _systemd_unit_command. rewrite decide_True by done.
  unfold bind, subprocess_call.
  destruct (run_process _ _) as [[rc|] w]; simpl; [|done].
  by case_decide.
Qed.

Lemma restart_supported : "restart" ∈ SYSTEMCTL_COMMANDS.
Proof. unfold SYSTEMCTL_COMMANDS. set_solver. Qed.

Lemma reload_supported : "reload" ∈ SYSTEMCTL_COMMANDS.
Proof. unfold SYSTEMCTL_COMMANDS. set_solver. Qed.

(** The effects of a pass: those of the two loops, then one restart when
    the loops completed and the applied set differed from the desired one,
    then those of the readiness assessment. *)
Lemma reconcile_effects (P : Effect → Prop) config C m :
  _current_modules (state m) = Some C →
  (∀ x, P (Spawn ["a2query"; "-m"; x])) → (∀ x, P (Spawn ["a2dismod"; x])) →
  (∀ x, P (enable_cmd x)) →
  P (Spawn ["systemctl"; "is-active"; HTTPD_SERVICE_NAME]) →
  P EmitApacheReady →
  let D := config_modules config in
  ∃ post,
    Forall P (effects (toggle_modules (C ∖ D) D m)) ∧ Forall P post ∧
    effects (on_config_changed config m)
    = (effects (toggle_modules (C ∖ D) D m)
       ++ match result (toggle_modules (C ∖ D) D m) with
          | inr _ => if decide (set_xor C D ≠ ∅) then [restart_cmd] else []
          | inl _ => []
          end
       ++ post)%list.
Proof.
  intros HC Hq Hd He Ha Hr D.
  rewrite (on_config_changed_unfold _ _ _ HC). fold D.
  pose proof (emits_toggle_modules P (C ∖ D) D Hq Hd He m) as Ht.
  destruct (result (toggle_modules (C ∖ D) D m)) as [e|[]] eqn:E.
  - exists []. rewrite (bind_err _ _ _ _ E). simpl.
    by rewrite app_nil_r.
  - rewrite (bind_ok _ _ _ _ E). simpl.
    set (m1 := final (toggle_modules (C ∖ D) D m)).
    unfold after_toggles.
    destruct (decide (set_xor C D ≠ ∅)) as [Hx|Hx].
    + set (r := _systemd_unit_command "restart" HTTPD_SERVICE_NAME m1).
      pose proof (systemd_effects "restart" HTTPD_SERVICE_NAME m1
                    restart_supported) as Hr1. fold r in Hr1.
      unfold bind at 1. fold r.
      destruct (result r); simpl; rewrite Hr1.
      * by exists [].
      * eexists. split_and!; [done| |done]. by apply emits_assess.
    + unfold bind at 1. simpl.
      eexists. split_and!; [done| |done]. by apply emits_assess.
Qed.

End PassEffects.

Section Restart.

Context {W : Type} `{!Platform W}.

Lemma is_restart_spec e : is_restart e = true ↔ e = restart_cmd.
Proof. unfold is_restart. by rewrite bool_decide_eq_true. Qed.

Lemma restart_not_among l :
  Forall (λ e, is_restart e = false) l → restart_cmd ∉ l.
Proof.
  intros Hl Hin. rewrite Forall_forall in Hl. specialize (Hl _ Hin).
  by rewrite (proj2 (is_restart_spec restart_cmd)) in Hl.
Qed.

(** The effects of a pass, for counting restarts: before and after the
    restart decision nothing is a restart. *)
Lemma reconcile_restarts config C (m : Machine W) :
  _current_modules (state m) = Some C →
  let D := config_modules config in
  ∃ pre post,
    Forall (λ e, is_restart e = false) pre ∧
    Forall (λ e, is_restart e = false) post ∧
    effects (on_config_changed config m)
    = (pre
       ++ match result (toggle_modules (C ∖ D) D m) with
          | inr _ => if decide (set_xor C D ≠ ∅) then [restart_cmd] else []
          | inl _ => []
          end
       ++ post)%list.
Proof.
  intros HC D.
  destruct (reconcile_effects (λ e, is_restart e = false) config C m HC)
    as (post & Hpre & Hpost & E); try done.
  by exists (effects (toggle_modules (C ∖ D) D m)), post.
Qed.

End Restart.

(** C2, as the code has it.  A pass stops at the first module command that
    fails, before the restart is considered.  So: a pass issues at most one
    restart; it issues one only if the symmetric difference of the applied
    set read at its start and the desired set is not empty; and when its
    two loops complete it issues one as soon as that difference is not
    empty. *)
Theorem restart_iff_changed {W : Type} `{!Platform W}
    (config : Config) (m : Machine W) (C : gset string) :
  _current_modules (state m) = Some C →
  let D := config_modules config in
  let issued := effects (on_config_changed config m) in
  (count is_restart issued ≤ 1)%nat ∧
  (restart_cmd ∈ issued → set_xor C D ≠ ∅) ∧
  (result (toggle_modules (C ∖ D) D m) = inr tt →
   set_xor C D ≠ ∅ → restart_cmd ∈ issued ∧ count is_restart issued = 1).
Proof.
  intros HC D issued.
  destruct (reconcile_restarts config C m HC) as (pre & post & Hpre & Hpost & E).
  fold D in E. subst issued. rewrite E, !count_app.
  rewrite (count_none _ _ Hpre), (count_none _ _ Hpost).
  split_and!.
  - destruct (result _); [simpl; lia|]. case_decide; simpl; lia.
  - rewrite !elem_of_app. intros [Hin|[Hin|Hin]].
    + by apply restart_not_among in Hin.
    + destruct (result _); [by apply elem_of_nil in Hin|].
      case_decide; [done | by apply elem_of_nil in Hin].
    + by apply restart_not_among in Hin.
  - intros -> Hx. rewrite decide_True by done. split; [|done].
    rewrite !elem_of_app. right; left. apply list_elem_of_singleton. done.
Qed.

Lemma restart_iff_changed_witness :
  let m := Scenario.machine {[ "ssl"; "headers" ]} None in
  let issued :=
    effects (on_config_changed (Platform0 := Scenario.scripted Scenario.all_ok)
               Scenario.web m) in
  restart_cmd ∈ issued ∧ count is_restart issued = 1.
Proof.
  refine (proj2 (proj2 (restart_iff_changed
    (Platform0 := Scenario.scripted Scenario.all_ok) Scenario.web
    (Scenario.machine {[ "ssl"; "headers" ]} None) {[ "ssl"; "headers" ]}
    eq_refl)) _ _).
  - by vm_compute.
  - apply (bool_decide_unpack _). by vm_compute.
Defined.

(** The claim as worded fails when a module command fails: here the applied
    set is empty, the desired set is not, [a2enmod] exits with status 1,
    and no restart is issued although the symmetric difference is not
    empty. *)
Lemma restart_iff_changed_counterexample :
  let C : gset string := ∅ in
  let m := Scenario.machine C None in
  let issued :=
    effects (on_config_changed
               (Platform0 := Scenario.scripted (Scenario.failing "a2enmod" 1))
               Scenario.web m) in
  ¬ (restart_cmd ∈ issued ↔ set_xor C (config_modules Scenario.web) ≠ ∅).
Proof.
  intros C m issued [_ Hx].
  assert (restart_cmd ∉ issued) as Hn
    by (apply (bool_decide_unpack _); by vm_compute).
  apply Hn, Hx. apply (bool_decide_unpack _). by vm_compute.
Qed.

Section Unchanged.

Context {W : Type} `{!Platform W}.

Lemma set_xor_diag (D : gset string) : set_xor D D = ∅.
Proof. unfold set_xor. set_solver. Qed.

(** When the desired set is the applied set, a pass is the enabling loop
    followed, if it completes, by the readiness assessment. *)
Lemma reconcile_unchanged_effects config (m : Machine W) :
  _current_modules (state m) = Some (config_modules config) →
  let loop := for_each enable_step (set_iter (config_modules config)) m in
  ∃ post,
    effects (on_config_changed config m) = (effects loop ++ post)%list ∧
    Forall (λ e, e = Spawn ["systemctl"; "is-active"; HTTPD_SERVICE_NAME]
                 ∨ e = EmitApacheReady) post ∧
    (result (on_config_changed config m) = inr tt → result loop = inr tt).
Proof.
  intros HC loop. rewrite (on_config_changed_unfold _ _ _ HC).
  replace (config_modules config ∖ config_modules config)
    with (∅ : gset string) by set_solver.
  unfold toggle_modules, after_toggles.
  rewrite set_iter_empty, set_xor_diag. simpl for_each.
  rewrite decide_False by (intros Hne; by apply Hne).
  set (run := bind _ _ m).
  assert (run =
    match result loop with
    | inl e => MkRun (effects loop) (inl e) (final loop)
    | inr _ =>
        MkRun (effects loop ++ effects (_assess_readiness (final loop)))
          (result (_assess_readiness (final loop)))
          (final (_assess_readiness (final loop)))
    end) as ->.
  { subst run. unfold bind, ret. simpl. fold loop. by destruct (result loop). }
  destruct (result loop) as [e|[]]; simpl.
  - exists []. by rewrite app_nil_r.
  - eexists. split_and!; [done| |done].
    apply emits_assess; auto.
Qed.

(** The run of one turn of the second loop. *)
Lemma enable_step_run x C (m : Machine W) :
  _current_modules (state m) = Some C →
  enable_step x m =
    match run_process ["a2enmod"; x] (world m) with
    | (Exited rc, w) =>
        if decide (rc = 0%Z) then
          MkRun [enable_cmd x] (inr tt)
            (MkMachine (MkStored (Some (C ∪ {[x]})) (ready (state m)))
               (unit_status m) w)
        else
          MkRun [enable_cmd x]
            (inl (MkExn ApacheModuleEnableException
                    ("unable to enable apache2 module " +:+ x +:+ ".")))
            (MkMachine (state m) (unit_status m) w)
    | (NotStarted, w) =>
        MkRun [enable_cmd x]
          (inl (MkExn OSError "command could not be started"))
          (MkMachine (state m) (unit_status m) w)
    end.
Proof.
  intros HC. unfold enable_step, bind, _enable_module. rewrite guarded_run.
  destruct (run_process _ _) as [[rc|] w]; simpl; [|done].
  case_decide; simpl; [|done].
  unfold current_modules_add, bind, get_current_modules. simpl.
  by rewrite HC.
Qed.

(** The second loop runs the enable commands up to and including the first
    that fails. *)
Lemma enable_loop_until_failure l C (m : Machine W) :
  _current_modules (state m) = Some C →
  effects (for_each enable_step l m)
  = map enable_cmd (enabled_until_failure l (world m)).
Proof.
  revert C m. induction l as [|x l IH]; intros C m HC; [done|].
  simpl. unfold bind. rewrite (enable_step_run _ _ _ HC).
  destruct (run_process _ _) as [[rc|] w]; simpl; [|done].
  case_decide; simpl; [|done].
  by rewrite (IH (C ∪ {[x]})).
Qed.

End Unchanged.

(** C3, as the code has it.  When the desired set is the applied set, a
    pass runs no disable command, probes no module and issues no restart;
    it still runs the enable command once for each desired module, in the
    order the set is walked, stopping at the first that fails: the enable
    commands it runs are those of the desired modules in that order, up to
    and including the first whose command does not exit with status 0 or
    cannot be started, and all of them when the pass returns. *)
Theorem reconcile_unchanged {W : Type} `{!Platform W}
    (config : Config) (m : Machine W) :
  _current_modules (state m) = Some (config_modules config) →
  let D := config_modules config in
  let run := on_config_changed config m in
  count (runs "a2dismod") (effects run) = 0 ∧
  count (runs "a2query") (effects run) = 0 ∧
  count is_restart (effects run) = 0 ∧
  List.filter (runs "a2enmod") (effects run)
    `prefix_of` map enable_cmd (set_iter D) ∧
  (result run = inr tt →
   List.filter (runs "a2enmod") (effects run) = map enable_cmd (set_iter D)) ∧
  List.filter (runs "a2enmod") (effects run)
  = map enable_cmd (enabled_until_failure (set_iter D) (world m)).
Proof.
  intros HC D run.
  destruct (reconcile_unchanged_effects config m HC)
    as (post & E & Hpost & Hok).
  fold D in E, Hok. fold run in E, Hok.
  destruct (enable_loop_effects (set_iter D) m) as [Hpre Heq].
  assert (∀ f, (∀ x, f (enable_cmd x) = false) →
               f (Spawn ["systemctl"; "is-active"; HTTPD_SERVICE_NAME]) = false →
               f EmitApacheReady = false →
               count f (effects run) = 0) as Hnone.
  { intros f Hf Hq He. rewrite E, count_app.
    rewrite !count_none; [done| |].
    - eapply Forall_impl; [exact Hpost|]. by intros e [-> | ->].
    - destruct Hpre as [k Hk].
      assert (Forall (λ e, f e = false) (map enable_cmd (set_iter D))) as Hall
        by (apply Forall_forall; intros e (x & -> & _)%list_elem_of_fmap; auto).
      rewrite Hk in Hall. by apply Forall_app in Hall as [? _]. }
  assert (List.filter (runs "a2enmod") (effects run)
          = effects (for_each enable_step (set_iter D) m)) as Hfilter.
  { rewrite E, List.filter_app.
    rewrite (filter_none _ post)
      by (eapply Forall_impl; [exact Hpost|]; by intros e [-> | ->]).
    rewrite app_nil_r. apply filter_all.
    destruct Hpre as [k Hk].
    assert (Forall (λ e, runs "a2enmod" e = true)
              (map enable_cmd (set_iter D))) as Hall
      by (apply Forall_forall; by intros e (x & -> & _)%list_elem_of_fmap).
    rewrite Hk in Hall. by apply Forall_app in Hall as [? _]. }
  split_and!; try (by apply Hnone).
  - by rewrite Hfilter.
  - intros Hrun. rewrite Hfilter. auto.
  - rewrite Hfilter. by apply (enable_loop_until_failure _ _ _ HC).
Qed.

Lemma reconcile_unchanged_witness :
  let m := Scenario.machine {[ "headers"; "rewrite" ]} None in
  let run := on_config_changed (Platform0 := Scenario.scripted Scenario.all_ok)
               Scenario.web m in
  let failed :=
    on_config_changed
      (Platform0 := Scenario.scripted (Scenario.failing "a2enmod" 1))
      Scenario.web m in
  count (runs "a2dismod") (effects run) = 0 ∧
  count is_restart (effects run) = 0 ∧
  List.filter (runs "a2enmod") (effects run)
  = map enable_cmd (elements (config_modules Scenario.web)) ∧
  List.filter (runs "a2enmod") (effects failed)
  = map enable_cmd (take 1 (elements (config_modules Scenario.web))).
Proof.
  intros m run failed.
  pose proof (reconcile_unchanged
    (Platform0 := Scenario.scripted Scenario.all_ok) Scenario.web m
    ltac:(by vm_compute)) as (H1 & _ & H3 & _ & H5 & _).
  pose proof (reconcile_unchanged
    (Platform0 := Scenario.scripted (Scenario.failing "a2enmod" 1))
    Scenario.web m ltac:(by vm_compute)) as (_ & _ & _ & _ & _ & H6).
  split_and!; [exact H1 | exact H3 | apply H5; by vm_compute |].
  etrans; [exact H6 | by vm_compute].
Defined.

(** With the applied set and the desired set both {headers, rewrite} and
    every command succeeding, the pass runs two enable commands, not
    none. *)
Lemma reconcile_unchanged_counterexample :
  let m := Scenario.machine {[ "headers"; "rewrite" ]} None in
  let run := on_config_changed (Platform0 := Scenario.scripted Scenario.all_ok)
               Scenario.web m in
  _current_modules (state m) = Some (config_modules Scenario.web) ∧
  result run = inr tt ∧
  ¬ (count (runs "a2enmod") (effects run) = 0 ∧
     count (runs "a2dismod") (effects run) = 0 ∧
     count is_restart (effects run) = 0).
Proof.
  split_and!; [by vm_compute | by vm_compute |].
  intros [He _]. by vm_compute in He.
Qed.

(** ** Disabling a module *)

Section Disable.

Context {W : Type} `{!Platform W}.

Implicit Types (m : Machine W) (x : string) (C D : gset string).

Lemma get_module_state_run x m :
  _get_module_state x m =
    match run_process ["a2query"; "-m"; x] (world m) with
    | (Exited rc, w) =>
        MkRun [probe_cmd x]
          match ModuleState_of_value rc with
          | Some s => inr s
          | None =>
              inl (MkExn ValueError (pretty rc +:+ " is not a valid ModuleState"))
          end
          (MkMachine (state m) (unit_status m) w)
    | (NotStarted, w) =>
        MkRun [probe_cmd x] (inl (MkExn OSError "command could not be started"))
          (MkMachine (state m) (unit_status m) w)
    end.
Proof.
  unfold _get_module_state, bind, subprocess_call.
  destruct (run_process _ _) as [[rc|] w]; simpl; [|done].
  by destruct (ModuleState_of_value rc).
Qed.

Lemma get_module_state_effects x m :
  effects (_get_module_state x m) = [probe_cmd x].
Proof.
  rewrite get_module_state_run. by destruct (run_process _ _) as [[rc|] w].
Qed.

(** What [_disable_module] does after the probe, state by state. *)
Lemma disable_module_after_probe x m s :
  result (_get_module_state x m) = inr s →
  let m1 := final (_get_module_state x m) in
  _disable_module x m =
    match s with
    | Found =>
        let r := try_except (subprocess_check_call ["a2dismod"; x])
                   CalledProcessError (raise (disable_failed x)) m1 in
        MkRun (probe_cmd x :: effects r) (result r) (final r)
    | OffByAdmin | OffByMaintainer => MkRun [probe_cmd x] (inr tt) m1
    | NotFound => MkRun [probe_cmd x] (inl (not_found x)) m1
    end.
Proof.
  intros E m1. unfold _disable_module. rewrite (bind_ok _ _ _ _ E).
  rewrite get_module_state_effects. fold m1.
  destruct s; repeat case_decide; simplify_eq; try done; set_solver.
Qed.

Lemma disable_module_probe_failed x m e :
  result (_get_module_state x m) = inl e →
  _disable_module x m =
    MkRun [probe_cmd x] (inl e) (final (_get_module_state x m)).
Proof.
  intros E. unfold _disable_module. rewrite (bind_err _ _ _ _ E).
  by rewrite get_module_state_effects.
Qed.

(** Every exception [_disable_module] can raise. *)
Lemma disable_module_raises x m e :
  result (_disable_module x m) = inl e →
  exn_class e = OSError ∨ exn_class e = ValueError ∨
  e = disable_failed x ∨ e = not_found x.
Proof.
  destruct (result (_get_module_state x m)) as [e'|s] eqn:E.
  - rewrite (disable_module_probe_failed _ _ _ E). simpl. intros [= <-].
    revert E. rewrite get_module_state_run.
    destruct (run_process _ _) as [[rc|] w]; simpl.
    + destruct (ModuleState_of_value rc); [done|]. intros [= <-]. auto.
    + intros [= <-]. auto.
  - rewrite (disable_module_after_probe _ _ _ E).
    destruct s; simpl; try done.
    + rewrite guarded_run.
      destruct (run_process _ _) as [[rc|] w]; simpl.
      * case_decide; [done|]. intros [= <-]. auto.
      * intros [= <-]. auto.
    + intros [= <-]. auto.
Qed.

End Disable.

Section Messages.

Lemma append_length (s t : string) :
  String.length (s +:+ t) = String.length s + String.length t.
Proof.
  induction s as [|a s IH]; [done|].
  change (String a s +:+ t) with (String a (s +:+ t)). simpl. by rewrite IH.
Qed.

Lemma append_inj_r (s x y : string) : x +:+ s = y +:+ s → x = y.
Proof.
  revert y. induction x as [|a x IH]; intros [|b y] E; [done| | |].
  - apply (f_equal String.length) in E. rewrite !append_length in E.
    simpl in E. lia.
  - apply (f_equal String.length) in E. rewrite !append_length in E.
    simpl in E. lia.
  - change (String a (x +:+ s) = String b (y +:+ s)) in E.
    injection E as -> E. f_equal. by apply IH.
Qed.

Lemma not_found_inj x y : not_found x = not_found y → x = y.
Proof.
  unfold not_found. intros [= E].
  exact (append_inj_r " was not found." x y E).
Qed.

Lemma disable_failed_not_unexpected x y : disable_failed x ≠ unexpected_state y.
Proof. unfold disable_failed, unexpected_state. intros [= E]. Qed.

Lemma not_found_not_unexpected x y : not_found x ≠ unexpected_state y.
Proof. unfold not_found, unexpected_state. intros [= E]. Qed.

End Messages.

Section DisableLoop.

Context {W : Type} `{!Platform W}.

Implicit Types (m : Machine W) (x : string) (C D : gset string).

(** Nothing but [_disable_module] raises the module-disable exception. *)
#[local] Abbreviation other_class :=
  (λ e : Exn, exn_class e ≠ ApacheModuleDisableException).

Lemma raises_call (P : Exn → Prop) argv :
  P (MkExn OSError "command could not be started") →
  raises P (subprocess_call (W:=W) argv).
Proof.
  intros HP m e. unfold subprocess_call.
  destruct (run_process _ _) as [[rc|] w]; simpl; [done|]. by intros [= <-].
Qed.

Lemma guarded_raises argv e0 m e :
  result (try_except (subprocess_check_call argv) CalledProcessError
            (raise e0) m) = inl e →
  e = e0 ∨ exn_class e = OSError.
Proof.
  rewrite guarded_run. destruct (run_process _ _) as [[rc|] w]; simpl.
  - case_decide; [done|]. intros [= <-]. by left.
  - intros [= <-]. by right.
Qed.

Lemma systemd_raises command name :
  raises other_class (_systemd_unit_command (W:=W) command name).
Proof.
  unfold _systemd_unit_command. case_decide; [|by apply raises_raise].
  apply raises_bind; [by apply raises_call|].
  intros rc. case_decide; [by apply raises_raise | apply raises_ret].
Qed.

Lemma assess_raises : raises other_class (_assess_readiness (W:=W)).
Proof.
  apply raises_bind.
  - apply raises_bind; [by apply raises_call | intros; apply raises_ret].
  - intros [|]; [|by intros m e].
    apply raises_bind; [by intros m e|]. intros _.
    apply raises_bind; by intros m e.
Qed.

Lemma after_toggles_raises C D : raises other_class (after_toggles (W:=W) C D).
Proof.
  apply raises_bind; [|intros; apply assess_raises].
  case_decide; [apply systemd_raises | apply raises_ret].
Qed.

Lemma enable_loop_raises l : raises other_class (for_each (W:=W) enable_step l).
Proof.
  apply raises_for_each. intros x. apply raises_bind.
  - intros m e [-> | He]%guarded_raises; [done | by rewrite He].
  - intros _. apply raises_bind.
    + intros m e. unfold get_current_modules.
      destruct (_current_modules _); simpl; [done|]. by intros [= <-].
    + by intros s m e.
Qed.

(** When the first loop raises, the exception is the one [_disable_module]
    raised for some module of the list, and that module is still in the
    applied set. *)
Lemma disable_loop_raise l C m e :
  NoDup l → (∀ x, x ∈ l → x ∈ C) →
  _current_modules (state m) = Some C →
  result (for_each disable_step l m) = inl e →
  ∃ x m' C',
    x ∈ l ∧ result (_disable_module x m') = inl e ∧
    _current_modules (state (final (for_each disable_step l m))) = Some C' ∧
    x ∈ C'.
Proof.
  revert C m. induction l as [|x l IH]; intros C m Hnd Hin HC; [done|].
  apply NoDup_cons in Hnd as [Hx Hnd].
  pose proof (keeps_modules_disable x m) as Hk. rewrite HC in Hk.
  assert (x ∈ C) as HxC by (apply Hin; left).
  simpl. destruct (result (disable_step x m)) as [e'|[]] eqn:E.
  - rewrite (bind_err _ _ _ _ E). simpl. intros [= ->].
    unfold disable_step in *.
    destruct (result (_disable_module x m)) as [e'|[]] eqn:E1.
    + rewrite (bind_err _ _ _ _ E1) in E |- *. simpl in *.
      exists x, m, C. split_and!; [left | congruence | done | done].
    + rewrite (bind_ok _ _ _ _ E1) in E. simpl in E.
      by rewrite (remove_run _ _ _ Hk HxC) in E.
  - rewrite (bind_ok _ _ _ _ E). simpl. intros Hl.
    destruct (IH (C ∖ {[x]}) (final (disable_step x m)) Hnd) as
      (y & m' & C' & Hy & He & HC' & HyC'); [| |done|].
    + intros y Hy. apply elem_of_difference. split; [apply Hin; by right|].
      apply not_elem_of_singleton. by intros ->.
    + by apply disable_step_ok.
    + exists y, m', C'. split_and!; [by right|done..].
Qed.

(** The same, for the whole pass, when the exception is "not found". *)
Lemma reconcile_not_found config C m x :
  _current_modules (state m) = Some C →
  result (on_config_changed config m) = inl (not_found x) →
  x ∈ C ∧
  ∃ C', _current_modules (state (final (on_config_changed config m)))
        = Some C' ∧ x ∈ C'.
Proof.
  intros HC. rewrite (on_config_changed_unfold _ _ _ HC).
  set (D := config_modules config).
  destruct (result (toggle_modules (C ∖ D) D m)) as [e|[]] eqn:E.
  2:{ rewrite (bind_ok _ _ _ _ E). simpl. intros He.
      by apply after_toggles_raises in He. }
  rewrite (bind_err _ _ _ _ E). simpl. intros [= ->].
  unfold toggle_modules in *.
  destruct (result (for_each disable_step (set_iter (C ∖ D)) m))
    as [e|[]] eqn:E1.
  2:{ rewrite (bind_ok _ _ _ _ E1) in E. simpl in E.
      by apply enable_loop_raises in E. }
  rewrite (bind_err _ _ _ _ E1) in E |- *. simpl in *. injection E as ->.
  destruct (disable_loop_raise (set_iter (C ∖ D)) C m _ (NoDup_set_iter _)
              ltac:(intros y Hy%elem_of_set_iter; set_solver) HC E1)
    as (y & m' & C' & Hy & He & HC' & HyC').
  apply disable_module_raises in He as [He|[He|[He|He]]]; try done.
  apply not_found_inj in He. subst y.
  apply elem_of_set_iter in Hy. split; [set_solver | eauto].
Qed.

End DisableLoop.

(** C4.  Disabling a module the probe reports as switched off, by the
    administrator or by the maintainer, succeeds and runs nothing but the
    probe: the disable command is not invoked.  Disabling one the probe
    reports as not found raises [ApacheModuleDisableException]; the step of
    the pass that was to remove it leaves the stored state as it was, and a
    pass that ends on this exception for a module still has that module in
    [_current_modules], where it was at the start. *)
Theorem disable_off_or_not_found {W : Type} `{!Platform W} :
  (∀ (x : string) (m : Machine W) (s : ModuleState),
     result (_get_module_state x m) = inr s →
     s = OffByAdmin ∨ s = OffByMaintainer →
     result (_disable_module x m) = inr tt ∧
     effects (_disable_module x m) = [probe_cmd x]) ∧
  (∀ (x : string) (m : Machine W),
     result (_get_module_state x m) = inr NotFound →
     result (_disable_module x m) = inl (not_found x) ∧
     result (disable_step x m) = inl (not_found x) ∧
     effects (disable_step x m) = [probe_cmd x] ∧
     state (final (disable_step x m)) = state m) ∧
  (∀ (config : Config) (m : Machine W) (C : gset string) (x : string),
     _current_modules (state m) = Some C →
     result (on_config_changed config m) = inl (not_found x) →
     x ∈ C ∧
     ∃ C', _current_modules (state (final (on_config_changed config m)))
           = Some C' ∧ x ∈ C').
Proof.
  split_and!.
  - intros x m s E Hs. rewrite (disable_module_after_probe _ _ _ E).
    by destruct Hs as [-> | ->].
  - intros x m E.
    pose proof (disable_module_after_probe _ _ _ E) as Hrun. simpl in Hrun.
    assert (result (_disable_module x m) = inl (not_found x)) as Hr
      by by rewrite Hrun.
    unfold disable_step. rewrite (bind_err _ _ _ _ Hr), Hrun. simpl.
    split_and!; try done.
    revert E. rewrite get_module_state_run.
    by destruct (run_process _ _) as [[rc|] w].
  - intros config m C x. apply reconcile_not_found.
Qed.

Lemma disable_off_or_not_found_witness :
  let off := Scenario.scripted (Scenario.failing "a2query" 32) in
  let missing := Scenario.scripted (Scenario.failing "a2query" 1) in
  let m := Scenario.machine {[ "ssl"; "headers" ]} None in
  (result (_disable_module (Platform0 := off) "ssl" m) = inr tt ∧
   effects (_disable_module (Platform0 := off) "ssl" m) = [probe_cmd "ssl"]) ∧
  (result (disable_step (Platform0 := missing) "ssl" m) = inl (not_found "ssl") ∧
   state (final (disable_step (Platform0 := missing) "ssl" m)) = state m) ∧
  ("ssl" ∈ ({[ "ssl"; "headers" ]} : gset string) ∧
   ∃ C', _current_modules
           (state (final (on_config_changed (Platform0 := missing)
                            Scenario.web m))) = Some C' ∧ "ssl" ∈ C').
Proof.
  intros off missing m.
  destruct (disable_off_or_not_found (Platform0 := off)) as (Hoff & _ & _).
  destruct (disable_off_or_not_found (Platform0 := missing))
    as (_ & Hmiss & Hpass).
  split_and!.
  - apply (Hoff "ssl" m OffByAdmin); [by vm_compute | by left].
  - apply (Hoff "ssl" m OffByAdmin); [by vm_compute | by left].
  - apply (Hmiss "ssl" m). by vm_compute.
  - apply (Hmiss "ssl" m). by vm_compute.
  - apply (Hpass Scenario.web m _ "ssl" eq_refl). by vm_compute.
  - apply (Hpass Scenario.web m _ "ssl" eq_refl). by vm_compute.
Defined.

(** C10.  When the probe command exits with a status other than 0, 1, 32
    and 33, [ModuleState(...)] raises [ValueError]: [_get_module_state]
    returns no state, [_disable_module] lets that [ValueError] through
    after the probe alone, and the failure is not of the module-disable
    class.  The last branch of [_disable_module], "unexpected module
    state", is never taken: no run raises its exception. *)
Theorem probe_status_outside_enum {W : Type} `{!Platform W} :
  (∀ (x : string) (m : Machine W) (rc : Z) (w : W),
     run_process ["a2query"; "-m"; x] (world m) = (Exited rc, w) →
     rc ≠ 0%Z → rc ≠ 1%Z → rc ≠ 32%Z → rc ≠ 33%Z →
     let e := MkExn ValueError (pretty rc +:+ " is not a valid ModuleState") in
     result (_get_module_state x m) = inl e ∧
     result (_disable_module x m) = inl e ∧
     effects (_disable_module x m) = [probe_cmd x] ∧
     exn_class e ≠ ApacheModuleDisableException) ∧
  (∀ (x y : string) (m : Machine W),
     result (_disable_module x m) ≠ inl (unexpected_state y)).
Proof.
  split.
  - intros x m rc w Hrun H0 H1 H32 H33 e.
    assert (result (_get_module_state x m) = inl e) as E.
    { rewrite get_module_state_run, Hrun. simpl.
      unfold ModuleState_of_value. by rewrite !decide_False by done. }
    rewrite (disable_module_probe_failed _ _ _ E). done.
  - intros x y m [He|[He|[He|He]]]%disable_module_raises;
      by first [ discriminate He
               | apply symmetry, disable_failed_not_unexpected in He
               | apply symmetry, not_found_not_unexpected in He ].
Qed.

Lemma probe_status_outside_enum_witness :
  let odd := Scenario.scripted (Scenario.failing "a2query" 2) in
  let m := Scenario.machine {[ "ssl" ]} None in
  let e := MkExn ValueError "2 is not a valid ModuleState" in
  result (_get_module_state (Platform0 := odd) "ssl" m) = inl e ∧
  result (_disable_module (Platform0 := odd) "ssl" m) = inl e ∧
  effects (_disable_module (Platform0 := odd) "ssl" m) = [probe_cmd "ssl"] ∧
  exn_class e ≠ ApacheModuleDisableException.
Proof.
  intros odd m e.
  exact (proj1 (probe_status_outside_enum (Platform0 := odd))
           "ssl" m 2%Z tt eq_refl
           ltac:(done) ltac:(done) ltac:(done) ltac:(done)).
Defined.

(** ** The service control surface *)

(** C9, as the code has it.  A command outside [SYSTEMCTL_COMMANDS] makes
    [_systemd_unit_command] raise [NotImplementedError], spawning nothing
    and leaving the machine as it was.  That class is not the one raised
    when a supported command exits with a non-zero status, which is
    [SystemctlCommandException]. *)
Theorem unsupported_command_rejected {W : Type} `{!Platform W}
    (command name : string) (m : Machine W) :
  command ∉ SYSTEMCTL_COMMANDS →
  _systemd_unit_command command name m =
    MkRun []
      (inl (MkExn NotImplementedError
              ("usage of systemctl command " +:+ dquote +:+ command +:+ dquote
               +:+ " is not supported by the charm.")))
      m ∧
  (∀ (supported : string) (rc : Z) (w : W),
     supported ∈ SYSTEMCTL_COMMANDS →
     run_process ["systemctl"; supported; name] (world m) = (Exited rc, w) →
     rc ≠ 0%Z →
     ∃ e, result (_systemd_unit_command supported name m) = inl e ∧
          exn_class e = SystemctlCommandException ∧
          exn_class e ≠ NotImplementedError).
Proof.
  intros Hc. split.
  - unfold _systemd_unit_command. by rewrite decide_False.
  - intros supported rc w Hs Hrun Hrc. unfold _systemd_unit_command.
    rewrite decide_True by done. unfold bind, subprocess_call.
    rewrite Hrun. simpl. rewrite decide_True by done. simpl. eauto.
Qed.

Lemma unsupported_command_rejected_witness :
  let m := Scenario.machine ∅ None in
  result (_systemd_unit_command
            (Platform0 := Scenario.scripted (Scenario.failing "systemctl" 1))
            "status" HTTPD_SERVICE_NAME m)
  = inl (MkExn NotImplementedError
           ("usage of systemctl command " +:+ dquote +:+ "status" +:+ dquote
            +:+ " is not supported by the charm.")) ∧
  ∃ e, result (_systemd_unit_command
                 (Platform0 := Scenario.scripted (Scenario.failing "systemctl" 1))
                 "restart" HTTPD_SERVICE_NAME m) = inl e ∧
       exn_class e = SystemctlCommandException.
Proof.
  intros m.
  destruct (unsupported_command_rejected
    (Platform0 := Scenario.scripted (Scenario.failing "systemctl" 1))
    "status" HTTPD_SERVICE_NAME m) as [H1 H2].
  { apply (bool_decide_unpack _). by vm_compute. }
  split; [by rewrite H1|].
  destruct (H2 "restart" 1%Z tt) as (e & He & Hc & _);
    [apply (bool_decide_unpack _); by vm_compute | done | done |].
  by exists e.
Defined.

(** The command [status] is not supported; the exception it gets is of
    class [NotImplementedError], while a [restart] that exits with status 1
    gets one of class [SystemctlCommandException]: the two kinds differ. *)
Lemma unsupported_command_counterexample :
  let systemctl_fails :=
    Scenario.scripted (Scenario.failing "systemctl" 1) in
  let m := Scenario.machine ∅ None in
  ("status" ∉ SYSTEMCTL_COMMANDS) ∧
  ¬ (∃ e e',
       result (_systemd_unit_command (Platform0 := systemctl_fails)
                 "status" HTTPD_SERVICE_NAME m) = inl e ∧
       result (_systemd_unit_command (Platform0 := systemctl_fails)
                 "restart" HTTPD_SERVICE_NAME m) = inl e' ∧
       exn_class e = SystemctlCommandException ∧
       exn_class e = exn_class e').
Proof.
  split; [apply (bool_decide_unpack _); by vm_compute|].
  intros (e & e' & He & _ & Hc & _).
  vm_compute in He. injection He as <-. discriminate Hc.
Qed.

(** ** Package installation *)

(** C8, as the code has it.  [apt_install] raises [ValueError], running
    nothing, when [packages] is not a sequence.  For every sequence, the
    empty one included, it runs the install command, made of the options and
    of the items of the sequence in order, and succeeds exactly when that
    command exits with status 0. *)
Theorem apt_install_checks_type {W : Type} `{!Platform W}
    (packages : PyValue) (options : option (list string)) (m : Machine W) :
  let opts :=
    match options with
    | None => ["--option=Dpkg::Options::=--force-confold"]
    | Some o => o
    end in
  let command :=
    ((["apt-get"; "--assume-yes"] ++ opts ++ ["install"])
     ++ sequence_items packages)%list in
  (is_Sequence packages = false →
   effects (apt_install packages options m) = [] ∧
   final (apt_install packages options m) = m ∧
   ∃ e, result (apt_install packages options m) = inl e ∧
        exn_class e = ValueError) ∧
  (is_Sequence packages = true →
   effects (apt_install packages options m) = [Spawn command] ∧
   (result (apt_install packages options m) = inr tt ↔
    (run_process command (world m)).1 = Exited 0)).
Proof.
  intros opts command. unfold apt_install. fold opts. split; intros ->.
  - simpl. eauto.
  - fold command. rewrite check_call_run.
    destruct (run_process command (world m)) as [[rc|] w]; simpl.
    + split; [done|]. case_decide; split; try done; try congruence.
    + split; [done|]. by split.
Qed.

Lemma apt_install_checks_type_witness :
  let m := Scenario.machine ∅ None in
  (∃ e, result (apt_install (Platform0 := Scenario.scripted Scenario.all_ok)
                  (PySet {[ "apache2" ]}) None m) = inl e ∧
        exn_class e = ValueError) ∧
  effects (apt_install (Platform0 := Scenario.scripted Scenario.all_ok)
             (PyList ["apache2"]) None m)
  = [Spawn ["apt-get"; "--assume-yes";
            "--option=Dpkg::Options::=--force-confold"; "install";
            "apache2"]].
Proof.
  intros m. split.
  - apply (proj1 (apt_install_checks_type
      (Platform0 := Scenario.scripted Scenario.all_ok)
      (PySet {[ "apache2" ]}) None m) eq_refl).
  - apply (proj2 (apt_install_checks_type
      (Platform0 := Scenario.scripted Scenario.all_ok)
      (PyList ["apache2"]) None m) eq_refl).
Defined.

(** With the empty list for [packages] and every command succeeding,
    [apt_install] does not raise: it runs the install command without any
    package name. *)
Lemma apt_install_counterexample :
  let m := Scenario.machine ∅ None in
  let run := apt_install (Platform0 := Scenario.scripted Scenario.all_ok)
               (PyList []) None m in
  sequence_items (PyList []) = [] ∧
  result run = inr tt ∧
  effects run
  = [Spawn ["apt-get"; "--assume-yes";
            "--option=Dpkg::Options::=--force-confold"; "install"]].
Proof. by vm_compute. Qed.

(** ** Vhost activation *)

(** C6.  While the stored readiness flag is false, the handler of the vhost
    relation event defers the event and does nothing else: it writes no
    file, spawns no command (no site activation, no reload) and leaves the
    machine, stored state included, as it was. *)
Theorem vhost_event_deferred_until_ready {W : Type} `{!Platform W}
    (config : Config) (event : RelationEvent) (m : Machine W) :
  ready (state m) = Some false →
  on_vhost_config_relation_changed config event m = MkRun [Defer] (inr tt) m.
Proof.
  intros Hr. unfold on_vhost_config_relation_changed, bind, get_ready.
  by rewrite Hr.
Qed.

Lemma vhost_event_deferred_until_ready_witness :
  let m := Scenario.machine {[ "ssl" ]} (Some false) in
  on_vhost_config_relation_changed
    (Platform0 := Scenario.scripted Scenario.all_ok)
    Scenario.web Scenario.peer_event m
  = MkRun [Defer] (inr tt) m.
Proof.
  intros m.
  apply (vhost_event_deferred_until_ready
           (Platform0 := Scenario.scripted Scenario.all_ok)).
  reflexivity.
Defined.

Section Activation.

Context {W : Type} `{!Platform W}.

Implicit Types (m : Machine W) (config : Config) (v : Vhost).

(** The run of [create_vhost]. *)
Lemma create_vhost_run server_name t p proto m :
  let name :=
    server_name +:+ "_" +:+ match proto with
                            | None => pretty p
                            | Some s => s
                            end in
  create_vhost server_name t p proto m =
    match b64decode_utf8 t with
    | None => MkRun [] (inl (MkExn DecodeError "invalid base64 or UTF-8 data")) m
    | Some text =>
        match write_file (vhost_file name) text (world m) with
        | (true, w) =>
            MkRun [WriteText (vhost_file name) text] (inr name)
              (MkMachine (state m) (unit_status m) w)
        | (false, w) =>
            MkRun [WriteText (vhost_file name) text]
              (inl (MkExn OSError "write failed"))
              (MkMachine (state m) (unit_status m) w)
        end
    end.
Proof.
  intros name. unfold create_vhost, bind, b64decode, write_text. fold name.
  destruct (b64decode_utf8 t) as [text|]; simpl; [|done].
  fold (vhost_file name). by destruct (write_file _ _ _) as [[] w].
Qed.

(** One turn of the loop: its effects are the first steps of the activation
    of the site the entry stands for, all of them when the turn succeeds. *)
Lemma activate_vhost_effects config v m :
  match vhost_site config v with
  | Some site =>
      effects (activate_vhost config v m) `prefix_of` activation site ∧
      (result (activate_vhost config v m) = inr tt →
       effects (activate_vhost config v m) = activation site)
  | None =>
      effects (activate_vhost config v m) = [] ∧
      result (activate_vhost config v m) ≠ inr tt
  end.
Proof.
  unfold vhost_site, activate_vhost.
  destruct (template v) as [t|]; [|by split].
  destruct (port v) as [p|]; [|by split].
  unfold getitem, bind at 1 2, ret at 1 2. simpl.
  unfold bind. rewrite create_vhost_run.
  destruct (b64decode_utf8 t) as [text|]; simpl; [|by split].
  destruct (write_file _ _ _) as [[] w]; simpl.
  - unfold _enable_site. rewrite guarded_effects. by split.
  - split; [|done]. apply prefix_cons, prefix_nil.
Qed.

Lemma activate_loop_ok config vhs m :
  result (for_each (activate_vhost config) vhs m) = inr tt →
  ∃ sites,
    Forall2 (λ v site, vhost_site config v = Some site) vhs sites ∧
    effects (for_each (activate_vhost config) vhs m)
    = concat (map activation sites).
Proof.
  revert m. induction vhs as [|v vhs IH]; intros m Hok.
  - exists []. by split; [constructor|].
  - apply for_each_cons_ok in Hok as [E1 E2].
    simpl. rewrite (bind_ok _ _ _ _ E1). simpl.
    destruct (IH _ E2) as (sites & Hs & He).
    pose proof (activate_vhost_effects config v m) as Hv.
    destruct (vhost_site config v) as [site|] eqn:Hsite; [|by destruct Hv].
    destruct Hv as [_ Hv]. exists (site :: sites).
    split; [by constructor|]. simpl concat. by rewrite (Hv E1), He.
Qed.

Lemma activate_loop_effects config vhs m e :
  e ∈ effects (for_each (activate_vhost config) vhs m) →
  ∃ v site, v ∈ vhs ∧ vhost_site config v = Some site ∧ e ∈ activation site.
Proof.
  revert m. induction vhs as [|v vhs IH]; intros m; simpl.
  - by intros ?%elem_of_nil.
  - assert (e ∈ effects (activate_vhost config v m) →
            ∃ v0 site, v0 ∈ v :: vhs ∧ vhost_site config v0 = Some site
                       ∧ e ∈ activation site) as Hhead.
    { intros Hin. pose proof (activate_vhost_effects config v m) as Hv.
      destruct (vhost_site config v) as [site|] eqn:Hsite.
      - destruct Hv as [[k Hk] _]. exists v, site.
        split_and!; [left | done |]. rewrite Hk. apply elem_of_app. by left.
      - destruct Hv as [Hv _]. rewrite Hv in Hin. by apply elem_of_nil in Hin. }
    unfold bind. destruct (result (activate_vhost config v m)); simpl; [done|].
    intros [Hin|Hin]%elem_of_app; [auto|].
    destruct (IH _ Hin) as (v0 & site & ? & ? & ?).
    exists v0, site. split_and!; [by right|done..].
Qed.

(** The handler, past its three gates. *)
Lemma vhost_handler_applying config event m u payload vhs :
  ready (state m) = Some true →
  ev_unit event = Some u →
  ev_vhosts event = Some payload → payload ≠ EmptyString →
  yaml_safe_load payload = Some vhs →
  on_vhost_config_relation_changed config event m =
    bind (for_each (activate_vhost config) vhs)
      (λ _, _systemd_unit_command "reload" HTTPD_SERVICE_NAME) m.
Proof.
  intros Hr Hu Hp Hne Hy. unfold on_vhost_config_relation_changed.
  assert (get_ready m = MkRun [] (inr true) m) as Hg
    by (unfold get_ready; by rewrite Hr).
  unfold bind at 1. rewrite Hg, Hu, Hp. simpl.
  rewrite decide_False by done.
  unfold bind at 1, safe_load. rewrite Hy. simpl.
  by destruct (bind _ _ m).
Qed.

(** Whatever the gates decide, the handler spawns nothing outside the loop
    over the decoded payload, but for the reload. *)
Lemma vhost_handler_effects config event m e :
  e ∈ effects (on_vhost_config_relation_changed config event m) →
  e = Defer ∨ e = reload_cmd ∨
  ∃ payload vhs,
    ev_vhosts event = Some payload ∧ yaml_safe_load payload = Some vhs ∧
    e ∈ effects (for_each (activate_vhost config) vhs m).
Proof.
  destruct (ready (state m)) as [[|]|] eqn:Hr.
  - destruct (ev_unit event) as [u|] eqn:Hu.
    + destruct (ev_vhosts event) as [payload|] eqn:Hp.
      * destruct (decide (payload = EmptyString)) as [->|Hne].
        -- unfold on_vhost_config_relation_changed, bind, get_ready.
           rewrite Hr, Hu, Hp. simpl. by intros ?%elem_of_nil.
        -- destruct (yaml_safe_load payload) as [vhs|] eqn:Hy.
           ++ rewrite (vhost_handler_applying _ _ _ _ _ _ Hr Hu Hp Hne Hy).
              unfold bind.
              destruct (result (for_each _ vhs m)); simpl; [by eauto 10|].
              rewrite (systemd_effects _ _ _ reload_supported).
              intros [Hin|Hin]%elem_of_app; [by eauto 10|].
              apply list_elem_of_singleton in Hin. auto.
           ++ unfold on_vhost_config_relation_changed, bind, get_ready,
                safe_load.
              rewrite Hr, Hu, Hp. simpl. rewrite decide_False by done.
              rewrite Hy. simpl. by intros ?%elem_of_nil.
      * unfold on_vhost_config_relation_changed, bind, get_ready.
        rewrite Hr, Hu, Hp. simpl. by intros ?%elem_of_nil.
    + unfold on_vhost_config_relation_changed, bind, get_ready.
      rewrite Hr, Hu. simpl. by intros ?%elem_of_nil.
  - unfold on_vhost_config_relation_changed, bind, get_ready.
    rewrite Hr. simpl. intros ->%list_elem_of_singleton. auto.
  - unfold on_vhost_config_relation_changed, bind, get_ready.
    rewrite Hr. simpl. by intros ?%elem_of_nil.
Qed.

(** The site activations of one turn of the loop: none, or the one of the
    site the entry stands for. *)
Lemma activate_vhost_sites config v m :
  (List.filter (runs "a2ensite") (effects (activate_vhost config v m)) = [] ∧
   result (activate_vhost config v m) ≠ inr tt) ∨
  ∃ site, vhost_site config v = Some site ∧
          List.filter (runs "a2ensite") (effects (activate_vhost config v m))
          = [site_cmd site.1].
Proof.
  pose proof (activate_vhost_effects config v m) as Hv.
  unfold vhost_site in *. unfold activate_vhost in *.
  destruct (template v) as [t|]; [|left; by destruct Hv as [-> ?]].
  destruct (port v) as [p|]; [|left; by destruct Hv as [-> ?]].
  clear Hv. unfold getitem, bind at 1 2, ret at 1 2. simpl.
  unfold bind. rewrite create_vhost_run.
  destruct (b64decode_utf8 t) as [text|]; simpl; [|by left].
  destruct (write_file _ _ _) as [[] w]; simpl; [|by left].
  right. eexists. split; [done|].
  unfold _enable_site. by rewrite guarded_effects.
Qed.

(** The site activations of the loop, in order, are those of the first
    entries of the payload, each under the name made of its own port. *)
Lemma activate_loop_sites config vhs m :
  ∃ k sites,
    Forall2 (λ v site, vhost_site config v = Some site) (take k vhs) sites ∧
    List.filter (runs "a2ensite")
      (effects (for_each (activate_vhost config) vhs m))
    = map (λ site, site_cmd site.1) sites.
Proof.
  revert m. induction vhs as [|v vhs IH]; intros m.
  - exists 0, []. by split; [constructor|].
  - simpl for_each. unfold bind.
    destruct (result (activate_vhost config v m)) as [e|[]] eqn:E; simpl.
    + destruct (activate_vhost_sites config v m)
        as [[Hf _]|(site & Hsite & Hf)].
      * exists 0, []. by split; [constructor|].
      * exists 1, [site]. split; [|done].
        simpl. rewrite take_0. by repeat constructor.
    + destruct (IH (final (activate_vhost config v m)))
        as (k & sites & Hs & Hf).
      destruct (activate_vhost_sites config v m)
        as [[_ Hne]|(site & Hsite & Hf1)]; [done|].
      exists (S k), (site :: sites). split; [by constructor|].
      by rewrite List.filter_app, Hf1, Hf.
Qed.

(** The site activations of the handler are those of its loop. *)
Lemma vhost_handler_sites config event m :
  List.filter (runs "a2ensite")
    (effects (on_vhost_config_relation_changed config event m)) = [] ∨
  ∃ payload vhs,
    ev_vhosts event = Some payload ∧ yaml_safe_load payload = Some vhs ∧
    List.filter (runs "a2ensite")
      (effects (on_vhost_config_relation_changed config event m))
    = List.filter (runs "a2ensite")
        (effects (for_each (activate_vhost config) vhs m)).
Proof.
  destruct (ready (state m)) as [[|]|] eqn:Hr.
  - destruct (ev_unit event) as [u|] eqn:Hu.
    + destruct (ev_vhosts event) as [payload|] eqn:Hp.
      * destruct (decide (payload = EmptyString)) as [->|Hne].
        -- left. unfold on_vhost_config_relation_changed, bind, get_ready.
           by rewrite Hr, Hu, Hp.
        -- destruct (yaml_safe_load payload) as [vhs|] eqn:Hy.
           ++ right. exists payload, vhs. split_and!; [done..|].
              rewrite (vhost_handler_applying _ _ _ _ _ _ Hr Hu Hp Hne Hy).
              unfold bind.
              destruct (result (for_each _ vhs m)); simpl; [done|].
              rewrite (systemd_effects _ _ _ reload_supported).
              by rewrite List.filter_app, app_nil_r.
           ++ left. unfold on_vhost_config_relation_changed, bind, get_ready,
                safe_load.
              rewrite Hr, Hu, Hp. simpl. rewrite decide_False by done.
              by rewrite Hy.
      * left. unfold on_vhost_config_relation_changed, bind, get_ready.
        by rewrite Hr, Hu, Hp.
    + left. unfold on_vhost_config_relation_changed, bind, get_ready.
      by rewrite Hr, Hu.
  - left. unfold on_vhost_config_relation_changed, bind, get_ready.
    by rewrite Hr.
  - left. unfold on_vhost_config_relation_changed, bind, get_ready.
    by rewrite Hr.
Qed.

Lemma count_activations f (sites : list (string * string)) n :
  (∀ site, count f (activation site) = n) →
  count f (concat (map activation sites)) = n * length sites.
Proof.
  intros Hf. induction sites as [|site sites IH].
  - unfold count. simpl. lia.
  - change (concat (map activation (site :: sites)))
      with (activation site ++ concat (map activation sites)).
    rewrite count_app, Hf, IH. simpl. lia.
Qed.

End Activation.

(** C5, as the code has it.  The loop of the handler stops at the first
    entry whose decoding, write or activation fails.  When the event comes
    with readiness true, a peer and a non-empty payload that decodes to N
    entries, and every turn of the loop succeeds, the handler performs, for
    each entry in the order of the payload, one write followed by one site
    activation, and after all of them one reload: N writes, N activations
    and one reload, which is the last effect. *)
Theorem vhosts_activated_in_order {W : Type} `{!Platform W}
    (config : Config) (event : RelationEvent) (m : Machine W)
    (u payload : string) (vhs : list Vhost) :
  ready (state m) = Some true →
  ev_unit event = Some u →
  ev_vhosts event = Some payload → payload ≠ EmptyString →
  yaml_safe_load payload = Some vhs →
  result (for_each (activate_vhost config) vhs m) = inr tt →
  let issued := effects (on_vhost_config_relation_changed config event m) in
  ∃ sites,
    Forall2 (λ v site, vhost_site config v = Some site) vhs sites ∧
    issued = concat (map activation sites) ++ [reload_cmd] ∧
    count is_write issued = length vhs ∧
    count (runs "a2ensite") issued = length vhs ∧
    count is_reload issued = 1.
Proof.
  intros Hr Hu Hp Hne Hy Hok issued. subst issued.
  rewrite (vhost_handler_applying _ _ _ _ _ _ Hr Hu Hp Hne Hy).
  rewrite (bind_ok _ _ _ _ Hok). simpl.
  rewrite (systemd_effects _ _ _ reload_supported).
  destruct (activate_loop_ok _ _ _ Hok) as (sites & Hs & ->).
  exists sites. rewrite !count_app, (Forall2_length _ _ _ Hs).
  rewrite (count_activations is_write sites 1) by done.
  rewrite (count_activations (runs "a2ensite") sites 1) by (intros; by vm_compute).
  rewrite (count_activations is_reload sites 0) by (intros; by vm_compute).
  split_and!; [done | done | | |]; unfold count; simpl; lia.
Qed.

Lemma vhosts_activated_in_order_witness :
  let m := Scenario.machine ∅ (Some true) in
  let issued :=
    effects (on_vhost_config_relation_changed
               (Platform0 := Scenario.scripted Scenario.all_ok)
               Scenario.web Scenario.peer_event m) in
  ∃ sites,
    Forall2 (λ v site,
               vhost_site (Platform0 := Scenario.scripted Scenario.all_ok)
                 Scenario.web v = Some site) Scenario.two_vhosts sites ∧
    issued = concat (map activation sites) ++ [reload_cmd] ∧
    count is_write issued = 2 ∧
    count (runs "a2ensite") issued = 2 ∧
    count is_reload issued = 1.
Proof.
  intros m.
  apply (vhosts_activated_in_order
           (Platform0 := Scenario.scripted Scenario.all_ok)
           Scenario.web Scenario.peer_event m "vhost/0" "vhosts"
           Scenario.two_vhosts);
    by vm_compute.
Defined.

(** With two entries in the payload and [a2ensite] exiting with status 1,
    the handler stops after the first write and the first activation: one
    write, not two, and no reload. *)
Lemma vhosts_activated_in_order_counterexample :
  let site_fails := Scenario.scripted (Scenario.failing "a2ensite" 1) in
  let m := Scenario.machine ∅ (Some true) in
  let issued :=
    effects (on_vhost_config_relation_changed (Platform0 := site_fails)
               Scenario.web Scenario.peer_event m) in
  ready (state m) = Some true ∧
  ev_unit Scenario.peer_event = Some "vhost/0" ∧
  ev_vhosts Scenario.peer_event = Some "vhosts" ∧
  yaml_safe_load (Platform := site_fails) "vhosts" = Some Scenario.two_vhosts ∧
  length Scenario.two_vhosts = 2 ∧
  ¬ (count is_write issued = 2 ∧ count (runs "a2ensite") issued = 2 ∧
     count is_reload issued = 1).
Proof.
  split_and!; try by vm_compute.
  intros [Hw _]. by vm_compute in Hw.
Qed.

(** C7, as the code has it.  The handler calls [create_vhost] without a
    protocol, so every vhost entry it processes gets the site name made of
    the server name and that entry's own port, joined by an underscore,
    whether the entry has a [protocol] key or not: each write and each
    activation of the turn of an entry is for that name, and the i-th site
    the handler activates is the one of the i-th entry of the payload.
    [create_vhost] itself names the site after the protocol when it is
    given one, and after the port otherwise. *)
Theorem site_named_after_port {W : Type} `{!Platform W} :
  (∀ (config : Config) (v : Vhost) (m : Machine W) (e : Effect),
     e ∈ effects (activate_vhost config v m) →
     ∃ p text,
       port v = Some p ∧
       let site := cfg_server_name config +:+ "_" +:+ pretty p in
       e = WriteText (vhost_file site) text ∨ e = site_cmd site) ∧
  (∀ (config : Config) (event : RelationEvent) (m : Machine W)
     (i : nat) (site : string),
     List.filter (runs "a2ensite")
       (effects (on_vhost_config_relation_changed config event m)) !! i
     = Some (site_cmd site) →
     ∃ payload vhs v p,
       ev_vhosts event = Some payload ∧ yaml_safe_load payload = Some vhs ∧
       vhs !! i = Some v ∧ port v = Some p ∧
       site = cfg_server_name config +:+ "_" +:+ pretty p) ∧
  (∀ (config : Config) (event : RelationEvent) (m : Machine W)
     (site : string),
     Spawn ["a2ensite"; site]
       ∈ effects (on_vhost_config_relation_changed config event m) →
     ∃ payload vhs v p,
       ev_vhosts event = Some payload ∧ yaml_safe_load payload = Some vhs ∧
       v ∈ vhs ∧ port v = Some p ∧
       site = cfg_server_name config +:+ "_" +:+ pretty p) ∧
  (∀ (server_name t : string) (p : Z) (proto : option string)
     (m : Machine W) (name : string),
     result (create_vhost server_name t p proto m) = inr name →
     name = server_name +:+ "_" +:+ match proto with
                                    | None => pretty p
                                    | Some s => s
                                    end).
Proof.
  split_and!.
  - intros config v m e Hin.
    pose proof (activate_vhost_effects config v m) as Hv.
    unfold vhost_site in Hv.
    destruct (template v) as [t|];
      [|destruct Hv as [Hv _]; rewrite Hv in Hin; by apply elem_of_nil in Hin].
    destruct (port v) as [p|];
      [|destruct Hv as [Hv _]; rewrite Hv in Hin; by apply elem_of_nil in Hin].
    destruct (b64decode_utf8 t) as [text|];
      [|destruct Hv as [Hv _]; rewrite Hv in Hin; by apply elem_of_nil in Hin].
    destruct Hv as [[k Hk] _]. exists p, text. split; [done|].
    assert (e ∈ activation (cfg_server_name config +:+ "_" +:+ pretty p, text))
      as He by (rewrite Hk; apply elem_of_app; by left).
    unfold activation in He. simpl in *.
    apply elem_of_cons in He as [->|He]; [by left|].
    apply list_elem_of_singleton in He as ->. by right.
  - intros config event m i site Hi.
    destruct (vhost_handler_sites config event m)
      as [Hf|(payload & vhs & Hp & Hy & Hf)];
      [by rewrite Hf in Hi|].
    rewrite Hf in Hi.
    destruct (activate_loop_sites config vhs m) as (k & sites & Hs & Hl).
    rewrite Hl, list_lookup_fmap in Hi.
    destruct (sites !! i) as [s|] eqn:Hsi; [|done].
    simpl in Hi. injection Hi as Hi.
    destruct (Forall2_lookup_r _ _ _ _ _ Hs Hsi) as (v & Hv & Hsite).
    apply lookup_take_Some in Hv as [Hv _].
    exists payload, vhs, v. unfold vhost_site in Hsite.
    destruct (template v) as [t|]; [|done].
    destruct (port v) as [p|]; [|done].
    destruct (b64decode_utf8 t) as [text|]; [|done].
    injection Hsite as <-. exists p. by split_and!.
  - intros config event m site
      [He|[He|(payload & vhs & Hp & Hy & Hin)]]%vhost_handler_effects;
      [discriminate He | discriminate He |].
    apply activate_loop_effects in Hin as (v & site0 & Hv & Hsite & Hin).
    exists payload, vhs, v. unfold vhost_site in Hsite.
    destruct (template v) as [t|]; [|done].
    destruct (port v) as [p|]; [|done].
    destruct (b64decode_utf8 t) as [text|]; [|done].
    injection Hsite as <-. exists p. split_and!; try done.
    unfold activation in Hin. simpl in Hin.
    apply elem_of_cons in Hin as [Hin|Hin]; [discriminate Hin|].
    apply list_elem_of_singleton in Hin. by injection Hin.
  - intros server_name t p proto m name. rewrite create_vhost_run.
    destruct (b64decode_utf8 t) as [text|]; [|done].
    destruct (write_file _ _ _) as [[] w]; simpl; [|done].
    by intros [= <-].
Qed.

Lemma site_named_after_port_witness :
  let m := Scenario.machine ∅ (Some true) in
  ∃ payload vhs v p,
    ev_vhosts Scenario.peer_event = Some payload ∧
    yaml_safe_load (Platform := Scenario.scripted Scenario.all_ok) payload
    = Some vhs ∧
    vhs !! 1 = Some v ∧ port v = Some p ∧
    "web_443" = cfg_server_name Scenario.web +:+ "_" +:+ pretty p.
Proof.
  intros m.
  apply (proj1 (proj2 (site_named_after_port
                         (Platform0 := Scenario.scripted Scenario.all_ok)))
           Scenario.web Scenario.peer_event m 1 "web_443").
  by vm_compute.
Defined.

(** The second entry of the payload has the protocol https and the port
    443: the site the handler activates for it is web_443, and no site
    web_https is activated. *)
Lemma site_named_after_port_counterexample :
  let m := Scenario.machine ∅ (Some true) in
  let run := on_vhost_config_relation_changed
               (Platform0 := Scenario.scripted Scenario.all_ok)
               Scenario.web Scenario.peer_event m in
  Scenario.two_vhosts !! 1
  = Some (MkVhost (Some "TGlzdGVuIDQ0Mw==") (Some 443%Z) (Some "https")) ∧
  result run = inr tt ∧
  List.filter (runs "a2ensite") (effects run)
  = [Spawn ["a2ensite"; "web_8080"]; Spawn ["a2ensite"; "web_443"]] ∧
  Spawn ["a2ensite"; "web_https"] ∉ effects run.
Proof.
  split_and!; try by vm_compute.
  apply (bool_decide_unpack _). by vm_compute.
Qed.

(** * Further properties *)

(** ** The module states and the words of the configuration *)

(** X1.  [ModuleState(v)] and [.value] are inverse of each other: the class is
    [@unique], so a value names one member. *)
Theorem ModuleState_value_round_trip :
  (∀ s, ModuleState_of_value (ModuleState_value s) = Some s) ∧
  (∀ v s, ModuleState_of_value v = Some s → ModuleState_value s = v) ∧
  (∀ s s', ModuleState_value s = ModuleState_value s' → s = s').
Proof.
  split_and!.
  - by intros [].
  - intros v s. unfold ModuleState_of_value.
    repeat case_decide; intros [= <-]; by subst.
  - by intros [] [].
Qed.

Section Words.

Lemma append_assoc (s t u : string) : (s +:+ t) +:+ u = s +:+ (t +:+ u).
Proof.
  induction s as [|a s IH]; [done|].
  change (String a ((s +:+ t) +:+ u) = String a (s +:+ (t +:+ u))).
  by rewrite IH.
Qed.

Lemma append_nil_r (s : string) : s +:+ EmptyString = s.
Proof.
  induction s as [|a s IH]; [done|].
  change (String a (s +:+ EmptyString) = String a s). by rewrite IH.
Qed.

Lemma append_nil_inv (s t : string) : s +:+ t = EmptyString → s = EmptyString.
Proof. by destruct s. Qed.

Lemma blank_free_snoc tok c :
  blank_free tok = true → py_isspace c = false →
  blank_free (tok +:+ String c EmptyString) = true.
Proof.
  intros Ht Hc. induction tok as [|a tok IH].
  - simpl. change (negb (py_isspace c) && true = true). by rewrite Hc.
  - change (blank_free (String a (tok +:+ String c EmptyString)) = true).
    simpl in *. apply andb_true_iff in Ht as [Ha Ht].
    by rewrite Ha, IH.
Qed.

Lemma split_from_words tok s :
  blank_free tok = true → Forall is_word (split_from tok s).
Proof.
  revert tok. induction s as [|c s IH]; intros tok Ht; simpl.
  - case_decide; [constructor|]. by repeat constructor.
  - destruct (py_isspace c) eqn:Hc.
    + case_decide; [by apply IH|].
      constructor; [done | by apply IH].
    + apply IH. by apply blank_free_snoc.
Qed.

Lemma split_from_word tok t rest :
  blank_free t = true →
  split_from tok (t +:+ rest) = split_from (tok +:+ t) rest.
Proof.
  revert tok. induction t as [|a t IH]; intros tok Ht.
  - by rewrite append_nil_r.
  - change (String a t +:+ rest) with (String a (t +:+ rest)).
    simpl in Ht. apply andb_true_iff in Ht as [Ha Ht].
    apply negb_true_iff in Ha. simpl. rewrite Ha, (IH _ Ht).
    by rewrite append_assoc.
Qed.

Lemma split_from_blanks s : all_blank s = true → split_from EmptyString s = [].
Proof.
  induction s as [|c s IH]; [done|]. simpl.
  intros [Hc Hs]%andb_true_iff. rewrite Hc. by apply IH.
Qed.

Lemma split_from_join (l : list string) :
  Forall is_word l → split_from EmptyString (join_words l) = l.
Proof.
  induction 1 as [|x l [Hne Hx] Hl IH]; [done|].
  destruct l as [|y l].
  - simpl. rewrite <- (append_nil_r x) at 1.
    rewrite (split_from_word _ _ _ Hx). simpl. by rewrite decide_False.
  - change (join_words (x :: y :: l))
      with (x +:+ String (Ascii.ascii_of_nat 32) (join_words (y :: l))).
    rewrite (split_from_word _ _ _ Hx).
    change (EmptyString +:+ x) with x. simpl split_from at 1.
    rewrite decide_False by done. f_equal. exact IH.
Qed.

End Words.

(** Every item [str.split()] returns is a word: it is not empty and holds no
    blank character. *)
Theorem str_split_words (s : string) : Forall is_word (str_split s).
Proof. by apply split_from_words. Qed.

(** X2.  Every module name the configuration asks for is a word: no desired
    module name is empty or holds a blank, however the [modules] option is
    spaced. *)
Theorem config_modules_words (config : Config) :
  set_Forall is_word (config_modules config).
Proof.
  intros x Hx. unfold config_modules in Hx.
  apply elem_of_list_to_set in Hx. revert x Hx. apply Forall_forall.
  by apply split_from_words.
Qed.

(** Splitting undoes joining: a list of words joined with single spaces
    splits back into the same list, in the same order. *)
Theorem str_split_join (l : list string) :
  Forall is_word l → str_split (join_words l) = l.
Proof. apply split_from_join. Qed.

Lemma str_split_join_witness :
  str_split (join_words ["ssl"; "headers"; "rewrite"])
  = ["ssl"; "headers"; "rewrite"].
Proof.
  apply str_split_join. repeat constructor; by vm_compute.
Defined.

(** X3.  Every finite set of words is the desired set of some configuration:
    the one whose [modules] option lists them separated by spaces. *)
Theorem config_modules_reaches (D : gset string) (server_name : string) :
  set_Forall is_word D →
  config_modules (MkConfig (join_words (elements D)) server_name) = D.
Proof.
  intros HD. unfold config_modules, str_split. simpl.
  rewrite split_from_join.
  - apply list_to_set_elements_L.
  - apply Forall_forall. intros x Hx%elem_of_elements. by apply HD.
Qed.

Lemma config_modules_reaches_witness :
  config_modules
    (MkConfig (join_words (elements ({[ "headers"; "rewrite" ]} : gset string)))
       "web")
  = {[ "headers"; "rewrite" ]}.
Proof.
  apply config_modules_reaches.
  intros x Hx. split.
  - intros ->. revert Hx. apply (bool_decide_unpack _). by vm_compute.
  - apply elem_of_elements in Hx. revert x Hx. apply Forall_forall.
    by vm_compute; repeat constructor.
Defined.

(** X4.  A [modules] option that is empty or made of blanks asks for no module
    at all. *)
Theorem config_modules_blank (config : Config) :
  all_blank (cfg_modules config) = true → config_modules config = ∅.
Proof.
  intros Hb. unfold config_modules, str_split. by rewrite split_from_blanks.
Qed.

Lemma config_modules_blank_witness :
  config_modules (MkConfig "  " "web") = ∅.
Proof. apply config_modules_blank. reflexivity. Defined.

(** ** Service control, readiness and installation *)

Section Service.

Context {W : Type} `{!Platform W}.

Implicit Types (m : Machine W).

(** The run of a supported command. *)
Lemma systemd_run command name m :
  command ∈ SYSTEMCTL_COMMANDS →
  _systemd_unit_command command name m =
    match run_process ["systemctl"; command; name] (world m) with
    | (Exited rc, w) =>
        MkRun [Spawn ["systemctl"; command; name]]
          (if decide (rc ≠ 0%Z) then
             inl (MkExn SystemctlCommandException
                    ("got unexpected return code " +:+ pretty rc +:+
                     " while executing " +:+ command +:+ " on unit " +:+ name))
           else inr tt)
          (MkMachine (state m) (unit_status m) w)
    | (NotStarted, w) =>
        MkRun [Spawn ["systemctl"; command; name]]
          (inl (MkExn OSError "command could not be started"))
          (MkMachine (state m) (unit_status m) w)
    end.
Proof.
  intros Hc. unfold _systemd_unit_command. rewrite decide_True by done.
  unfold bind, subprocess_call.
  destruct (run_process _ _) as [[rc|] w]; simpl; [|done].
  by case_decide.
Qed.

Lemma start_supported : "start" ∈ SYSTEMCTL_COMMANDS.
Proof. unfold SYSTEMCTL_COMMANDS. set_solver. Qed.

Lemma stop_supported : "stop" ∈ SYSTEMCTL_COMMANDS.
Proof. unfold SYSTEMCTL_COMMANDS. set_solver. Qed.

(** The run of the readiness assessment. *)
Lemma assess_run m :
  _assess_readiness m =
    match run_process ["systemctl"; "is-active"; HTTPD_SERVICE_NAME] (world m)
    with
    | (Exited rc, w) =>
        if decide (rc ≠ 0%Z) then
          MkRun [is_active_cmd] (inr tt)
            (MkMachine (MkStored (_current_modules (state m)) (Some false))
               (unit_status m) w)
        else
          MkRun [is_active_cmd; EmitApacheReady] (inr tt)
            (MkMachine (MkStored (_current_modules (state m)) (Some true))
               ActiveStatus w)
    | (NotStarted, w) =>
        MkRun [is_active_cmd]
          (inl (MkExn OSError "command could not be started"))
          (MkMachine (state m) (unit_status m) w)
    end.
Proof.
  unfold _assess_readiness, _is_systemd_unit_active, bind, subprocess_call.
  destruct (run_process _ _) as [[rc|] w]; simpl; [|done].
  by case_decide.
Qed.

End Service.

(** X5.  A supported command spawns [systemctl] once and touches neither the
    stored state nor the unit status.  It returns exactly when the command
    exits with status 0; another status raises
    [SystemctlCommandException], whose message quotes the status, the
    command and the unit. *)
Theorem systemd_command_supported {W : Type} `{!Platform W}
    (command name : string) (m : Machine W) :
  command ∈ SYSTEMCTL_COMMANDS →
  let run := _systemd_unit_command command name m in
  effects run = [Spawn ["systemctl"; command; name]] ∧
  state (final run) = state m ∧
  unit_status (final run) = unit_status m ∧
  (result run = inr tt ↔
   (run_process ["systemctl"; command; name] (world m)).1 = Exited 0) ∧
  (∀ rc, (run_process ["systemctl"; command; name] (world m)).1 = Exited rc →
         rc ≠ 0%Z →
         result run =
           inl (MkExn SystemctlCommandException
                  ("got unexpected return code " +:+ pretty rc +:+
                   " while executing " +:+ command +:+ " on unit " +:+ name))).
Proof.
  intros Hc run. subst run. rewrite (systemd_run _ _ _ Hc).
  destruct (run_process _ _) as [[rc|] w]; simpl.
  - split_and!; try done.
    + destruct (decide (rc = 0%Z)) as [->|Hne].
      * by rewrite decide_False by (intros Hne; by apply Hne).
      * rewrite decide_True by done. split; [done|]. by intros [= ->].
    + intros rc' [= ->] Hrc. by rewrite decide_True.
  - split_and!; try done; by split.
Qed.

Lemma systemd_command_supported_witness :
  let m := Scenario.machine ∅ None in
  result (_systemd_unit_command
            (Platform0 := Scenario.scripted (Scenario.failing "systemctl" 3))
            "reload" HTTPD_SERVICE_NAME m)
  = inl (MkExn SystemctlCommandException
           "got unexpected return code 3 while executing reload on unit apache2").
Proof.
  intros m.
  destruct (systemd_command_supported
              (Platform0 := Scenario.scripted (Scenario.failing "systemctl" 3))
              "reload" HTTPD_SERVICE_NAME m reload_supported)
    as (_ & _ & _ & _ & H).
  etrans; [apply (H 3%Z); by vm_compute | by vm_compute].
Defined.

(** X6.  [on_start] and [on_stop] spawn one [systemctl] command on the unit
    [apache2] and never raise [NotImplementedError].  Neither touches the
    stored state: stopping the service leaves the readiness flag as it
    was. *)
Theorem start_stop_keep_state {W : Type} `{!Platform W} (m : Machine W) :
  (effects (on_start m) = [Spawn ["systemctl"; "start"; "apache2"]] ∧
   state (final (on_start m)) = state m ∧
   ∀ e, result (on_start m) = inl e → exn_class e ≠ NotImplementedError) ∧
  (effects (on_stop m) = [Spawn ["systemctl"; "stop"; "apache2"]] ∧
   state (final (on_stop m)) = state m ∧
   ∀ e, result (on_stop m) = inl e → exn_class e ≠ NotImplementedError).
Proof.
  unfold on_start, on_stop.
  rewrite (systemd_run _ _ _ start_supported),
    (systemd_run _ _ _ stop_supported).
  split.
  - destruct (run_process _ _) as [[rc|] w]; simpl;
      (split_and!; [done | done |]); intros e; [case_decide|];
      by intros [= <-].
  - destruct (run_process ["systemctl"; "stop"; _] _) as [[rc|] w]; simpl;
      (split_and!; [done | done |]); intros e; [case_decide|];
      by intros [= <-].
Qed.

(** X7.  The readiness assessment follows the probe, each time it runs.  When
    [systemctl is-active] exits with status 0, the flag becomes true, the
    [apache_ready] event is emitted and its handler sets the unit status to
    active.  When it exits with another status, the flag becomes false,
    nothing is emitted and the unit status stays what it was.  The applied
    module set is not touched. *)
Theorem assess_readiness_follows_probe {W : Type} `{!Platform W}
    (m : Machine W) (rc : Z) (w : W) :
  run_process ["systemctl"; "is-active"; HTTPD_SERVICE_NAME] (world m)
  = (Exited rc, w) →
  let run := _assess_readiness m in
  result run = inr tt ∧
  _current_modules (state (final run)) = _current_modules (state m) ∧
  world (final run) = w ∧
  (rc = 0%Z →
   ready (state (final run)) = Some true ∧
   effects run = [is_active_cmd; EmitApacheReady] ∧
   unit_status (final run) = ActiveStatus) ∧
  (rc ≠ 0%Z →
   ready (state (final run)) = Some false ∧
   effects run = [is_active_cmd] ∧
   unit_status (final run) = unit_status m).
Proof.
  intros Hrun run. subst run. rewrite assess_run, Hrun.
  case_decide; simpl; split_and!; try done.
Qed.

Lemma assess_readiness_follows_probe_witness :
  let m := Scenario.machine {[ "ssl" ]} (Some true) in
  let run := _assess_readiness
               (Platform0 := Scenario.scripted (Scenario.failing "systemctl" 3))
               m in
  ready (state (final run)) = Some false ∧
  effects run = [is_active_cmd] ∧
  unit_status (final run) = unit_status m.
Proof.
  intros m.
  apply (assess_readiness_follows_probe
           (Platform0 := Scenario.scripted (Scenario.failing "systemctl" 3))
           m 3%Z tt eq_refl).
  done.
Defined.

(** X8.  When its command runs and exits, [_enable_module], [_enable_site]
    and [_disable_site] each spawn that one command, return if the status
    is 0 and otherwise raise the exception of the operation, whose message
    names the module or the site: the [CalledProcessError] of
    [check_call] is translated.  [apt_install] does not translate it: an
    install command that exits with another status than 0 raises
    [CalledProcessError]. *)
Theorem toggles_translate_failures {W : Type} `{!Platform W}
    (x : string) (m : Machine W) :
  (∀ rc w,
     run_process ["a2enmod"; x] (world m) = (Exited rc, w) →
     effects (_enable_module x m) = [enable_cmd x] ∧
     (rc = 0%Z → result (_enable_module x m) = inr tt) ∧
     (rc ≠ 0%Z →
      result (_enable_module x m)
      = inl (MkExn ApacheModuleEnableException
               ("unable to enable apache2 module " +:+ x +:+ ".")))) ∧
  (∀ rc w,
     run_process ["a2ensite"; x] (world m) = (Exited rc, w) →
     effects (_enable_site x m) = [site_cmd x] ∧
     (rc = 0%Z → result (_enable_site x m) = inr tt) ∧
     (rc ≠ 0%Z →
      result (_enable_site x m)
      = inl (MkExn ApacheSiteEnableException
               ("unable to enable apache2 site " +:+ x +:+ ".")))) ∧
  (∀ rc w,
     run_process ["a2dissite"; x] (world m) = (Exited rc, w) →
     effects (_disable_site x m) = [Spawn ["a2dissite"; x]] ∧
     (rc = 0%Z → result (_disable_site x m) = inr tt) ∧
     (rc ≠ 0%Z →
      result (_disable_site x m)
      = inl (MkExn ApacheSiteDisableException
               ("unable to disable apache2 site " +:+ x +:+ ".")))) ∧
  (∀ (packages : PyValue) (options : option (list string)) rc w,
     is_Sequence packages = true →
     run_process
       ((["apt-get"; "--assume-yes"]
         ++ match options with
            | None => ["--option=Dpkg::Options::=--force-confold"]
            | Some o => o
            end
         ++ ["install"]) ++ sequence_items packages) (world m)
     = (Exited rc, w) →
     rc ≠ 0%Z →
     ∃ e, result (apt_install packages options m) = inl e ∧
          exn_class e = CalledProcessError).
Proof.
  split_and!.
  - intros rc w Hrun. unfold _enable_module. rewrite guarded_run, Hrun. simpl.
    split_and!; [done | by intros -> | intros Hrc; by rewrite decide_False].
  - intros rc w Hrun. unfold _enable_site. rewrite guarded_run, Hrun. simpl.
    split_and!; [done | by intros -> | intros Hrc; by rewrite decide_False].
  - intros rc w Hrun. unfold _disable_site. rewrite guarded_run, Hrun. simpl.
    split_and!; [done | by intros -> | intros Hrc; by rewrite decide_False].
  - intros packages options rc w Hs Hrun Hrc. unfold apt_install.
    rewrite Hs, check_call_run, Hrun. simpl.
    rewrite decide_False by done. eauto.
Qed.

Lemma toggles_translate_failures_witness :
  let site_fails := Scenario.scripted (Scenario.failing "a2ensite" 1) in
  let m := Scenario.machine ∅ None in
  result (_enable_site (Platform0 := site_fails) "web_8080" m)
  = inl (MkExn ApacheSiteEnableException
           "unable to enable apache2 site web_8080.") ∧
  ∃ e, result (apt_install
                 (Platform0 := Scenario.scripted (Scenario.failing "apt-get" 100))
                 (PyList ["apache2"]) None m) = inl e ∧
       exn_class e = CalledProcessError.
Proof.
  intros site_fails m. split.
  - destruct (toggles_translate_failures (Platform0 := site_fails)
                "web_8080" m) as (_ & H & _).
    destruct (H 1%Z tt eq_refl) as (_ & _ & H1). by apply H1.
  - destruct (toggles_translate_failures
                (Platform0 := Scenario.scripted (Scenario.failing "apt-get" 100))
                "apache2" m) as (_ & _ & _ & H).
    by apply (H (PyList ["apache2"]) None 100%Z tt).
Defined.

(** X9.  [on_install] runs the install command, and the disabling of the
    default site only if the install command exits with status 0.  When it
    returns, these two commands, in this order, are all it ran and the
    applied module set is the empty set.  It never touches the readiness
    flag. *)
Theorem install_resets_modules {W : Type} `{!Platform W} (m : Machine W) :
  (result (on_install m) = inr tt →
   _current_modules (state (final (on_install m))) = Some ∅ ∧
   effects (on_install m) = [install_cmd; default_site_cmd]) ∧
  ready (state (final (on_install m))) = ready (state m) ∧
  (effects (on_install m) = [install_cmd] ∨
   effects (on_install m) = [install_cmd; default_site_cmd]) ∧
  (default_site_cmd ∈ effects (on_install m) ↔
   (run_process ["apt-get"; "--assume-yes";
                 "--option=Dpkg::Options::=--force-confold"; "install";
                 "apache2"] (world m)).1 = Exited 0).
Proof.
  unfold on_install, bind at 1, set_current_modules. simpl.
  unfold bind, apt_install. simpl. rewrite check_call_run. simpl.
  destruct (run_process _ _) as [[rc|] w] eqn:E; simpl.
  - destruct (decide (rc = 0%Z)) as [->|Hne]; simpl.
    + unfold _disable_site. rewrite guarded_run. simpl.
      destruct (run_process ["a2dissite"; _] w) as [[rc'|] w']; simpl;
        (split_and!; [done | done | by right |]);
        (split; [done|]); intros _; right; left.
    + split_and!; [done | done | by left |].
      split; [|by intros [= ->]].
      intros [Hin|Hin]%elem_of_cons; [discriminate Hin|].
      by apply elem_of_nil in Hin.
  - split_and!; [done | done | by left |].
    split; [|done].
    intros [Hin|Hin]%elem_of_cons; [discriminate Hin|].
    by apply elem_of_nil in Hin.
Qed.

Lemma install_resets_modules_witness :
  let m := Scenario.machine {[ "ssl" ]} None in
  let run := on_install (Platform0 := Scenario.scripted Scenario.all_ok) m in
  _current_modules (state (final run)) = Some ∅ ∧
  effects run = [install_cmd; default_site_cmd].
Proof.
  intros m.
  apply (proj1 (install_resets_modules
                  (Platform0 := Scenario.scripted Scenario.all_ok) m)).
  by vm_compute.
Defined.

(** ** Disabling a module that is switched on *)

(** X10.  When the probe reports the module as found, [_disable_module] runs the
    disable command after the probe, without touching the stored state.  It
    returns exactly when that command exits with status 0; another status
    raises [ApacheModuleDisableException] ("unable to disable"). *)
Theorem disable_found_module {W : Type} `{!Platform W}
    (x : string) (m : Machine W) :
  result (_get_module_state x m) = inr Found →
  let m1 := final (_get_module_state x m) in
  let run := _disable_module x m in
  effects run = [probe_cmd x; disable_cmd x] ∧
  state (final run) = state m ∧
  (result run = inr tt ↔
   (run_process ["a2dismod"; x] (world m1)).1 = Exited 0) ∧
  (∀ rc, (run_process ["a2dismod"; x] (world m1)).1 = Exited rc → rc ≠ 0%Z →
         result run = inl (disable_failed x)).
Proof.
  intros E m1 run. subst run.
  rewrite (disable_module_after_probe _ _ _ E). simpl. fold m1.
  rewrite guarded_run.
  assert (state m1 = state m) as Hs.
  { subst m1. rewrite get_module_state_run.
    by destruct (run_process _ _) as [[rc|] w]. }
  destruct (run_process _ (world m1)) as [[rc|] w]; simpl.
  - split_and!; try done.
    + destruct (decide (rc = 0%Z)) as [->|Hne]; [done|].
      split; [done|]. by intros [= ->].
    + intros rc' [= ->] Hrc. by rewrite decide_False.
  - split_and!; try done; by split.
Qed.

Lemma disable_found_module_witness :
  let m := Scenario.machine {[ "ssl" ]} None in
  let run := _disable_module
               (Platform0 := Scenario.scripted (Scenario.failing "a2dismod" 1))
               "ssl" m in
  effects run = [probe_cmd "ssl"; disable_cmd "ssl"] ∧
  result run = inl (disable_failed "ssl").
Proof.
  intros m.
  destruct (disable_found_module
              (Platform0 := Scenario.scripted (Scenario.failing "a2dismod" 1))
              "ssl" m ltac:(by vm_compute)) as (H1 & _ & _ & H4).
  split; [exact H1|]. apply (H4 1%Z); by vm_compute.
Defined.

(** ** Writing a vhost *)

(** X11.  [create_vhost] decodes the template first: when the decoding fails it
    raises without writing anything.  Otherwise it writes exactly one file,
    [sites-available/<name>.conf] under the configuration directory, whose
    content is the decoded template, and when the write succeeds it returns
    [<name>], the site name without the extension. *)
Theorem create_vhost_writes_site {W : Type} `{!Platform W}
    (server_name t : string) (p : Z) (proto : option string) (m : Machine W) :
  let run := create_vhost server_name t p proto m in
  (b64decode_utf8 t = None →
   effects run = [] ∧ final run = m ∧
   ∃ e, result run = inl e ∧ exn_class e = DecodeError) ∧
  (∀ text, b64decode_utf8 t = Some text →
     ∃ name,
       effects run
       = [WriteText (APACHE_CONFIG_DIR // "sites-available"
                     // (name +:+ ".conf")) text] ∧
       state (final run) = state m ∧
       ∀ r, result run = inr r → r = name).
Proof.
  intros run. subst run. rewrite create_vhost_run. split.
  - intros ->. simpl. eauto.
  - intros text ->. eexists.
    destruct (write_file _ _ _) as [[] w]; simpl;
      (split_and!; [reflexivity | done |]); intros r; by intros [= <-].
Qed.

Lemma create_vhost_writes_site_witness :
  let m := Scenario.machine ∅ (Some true) in
  let run := create_vhost (Platform0 := Scenario.scripted Scenario.all_ok)
               "web" "TGlzdGVuIDgwODA=" 8080 None m in
  ∃ name,
    effects run
    = [WriteText (APACHE_CONFIG_DIR // "sites-available" // (name +:+ ".conf"))
         "Listen 8080"] ∧
    state (final run) = state m ∧
    ∀ r, result run = inr r → r = name.
Proof.
  intros m.
  apply (proj2 (create_vhost_writes_site
                  (Platform0 := Scenario.scripted Scenario.all_ok)
                  "web" "TGlzdGVuIDgwODA=" 8080 None m)).
  reflexivity.
Defined.

(** ** More on the reconciliation pass *)

Section PassOrder.

Context {W : Type} `{!Platform W}.

Implicit Types (m : Machine W) (x : string) (C D : gset string).

Lemma bind_effects {A B} (c : M W A) (k : A → M W B) m :
  ∃ post,
    effects (bind c k m) = effects (c m) ++ post ∧
    (post = [] ∨
     ∃ a, result (c m) = inr a ∧ post = effects (k a (final (c m)))).
Proof.
  unfold bind. destruct (result (c m)) as [e|a] eqn:E; simpl.
  - exists []. rewrite app_nil_r. auto.
  - eexists. split; [done|]. right. eauto.
Qed.

Lemma emits_for_each_in (P : Effect → Prop) {A} (body : A → M W unit) l :
  (∀ a, a ∈ l → emits P (body a)) → emits P (for_each body l).
Proof.
  induction l as [|a l IH]; intros Hb; simpl.
  - apply emits_ret.
  - apply emits_bind; [apply Hb; left|].
    intros _. apply IH. intros b Hin. apply Hb. by right.
Qed.

Lemma emits_after_toggles (P : Effect → Prop) C D :
  P restart_cmd → P is_active_cmd → P EmitApacheReady →
  emits P (after_toggles (W:=W) C D).
Proof.
  intros Hr Ha He. apply emits_bind; [|intros; by apply emits_assess].
  case_decide; [|apply emits_ret].
  intros m. rewrite (systemd_effects _ _ _ restart_supported).
  by repeat constructor.
Qed.

(** The effects of [_disable_module], and of the step of the first loop. *)
Lemma disable_module_effects x m :
  effects (_disable_module x m) = [probe_cmd x] ∨
  effects (_disable_module x m) = [probe_cmd x; disable_cmd x].
Proof.
  destruct (result (_get_module_state x m)) as [e|s] eqn:E.
  - rewrite (disable_module_probe_failed _ _ _ E). by left.
  - rewrite (disable_module_after_probe _ _ _ E).
    destruct s; simpl; auto. rewrite guarded_effects. by right.
Qed.

Lemma disable_step_effects x m :
  effects (disable_step x m) = effects (_disable_module x m).
Proof.
  unfold disable_step, bind.
  destruct (result (_disable_module x m)); simpl; [done|].
  unfold current_modules_remove, bind, get_current_modules.
  destruct (_current_modules _); simpl; [|by rewrite app_nil_r].
  case_decide; simpl; by rewrite app_nil_r.
Qed.

Lemma disable_step_probes x m :
  List.filter (runs "a2query") (effects (disable_step x m)) = [probe_cmd x].
Proof.
  rewrite disable_step_effects.
  by destruct (disable_module_effects x m) as [-> | ->].
Qed.

Lemma disable_loop_probes l m :
  result (for_each disable_step l m) = inr tt →
  List.filter (runs "a2query") (effects (for_each disable_step l m))
  = map probe_cmd l.
Proof.
  revert m. induction l as [|x l IH]; intros m Hok; [done|].
  apply for_each_cons_ok in Hok as [E1 E2].
  simpl. rewrite (bind_ok _ _ _ _ E1). simpl.
  by rewrite List.filter_app, disable_step_probes, (IH _ E2).
Qed.

(** *** What remains applied, whatever the outcome *)

Lemma disable_step_bounds x C m :
  _current_modules (state m) = Some C →
  ∃ C', _current_modules (state (final (disable_step x m))) = Some C' ∧
        C ∖ {[x]} ⊆ C' ∧ C' ⊆ C.
Proof.
  intros HC. pose proof (keeps_modules_disable x m) as Hk. rewrite HC in Hk.
  unfold disable_step, bind.
  destruct (result (_disable_module x m)) as [e|[]]; simpl.
  - exists C. split; [done | set_solver].
  - unfold current_modules_remove, bind, get_current_modules. rewrite Hk.
    simpl. case_decide; simpl.
    + exists (C ∖ {[x]}). split; [done | set_solver].
    + exists C. split; [done | set_solver].
Qed.

Lemma enable_step_bounds x C m :
  _current_modules (state m) = Some C →
  ∃ C', _current_modules (state (final (enable_step x m))) = Some C' ∧
        C ⊆ C' ∧ C' ⊆ C ∪ {[x]}.
Proof.
  intros HC. pose proof (keeps_modules_enable x m) as Hk. rewrite HC in Hk.
  unfold enable_step, bind.
  destruct (result (_enable_module x m)) as [e|[]]; simpl.
  - exists C. split; [done | set_solver].
  - unfold current_modules_add, bind, get_current_modules. rewrite Hk.
    simpl. exists (C ∪ {[x]}). split; [done | set_solver].
Qed.

Lemma disable_loop_bounds l C m :
  _current_modules (state m) = Some C →
  ∃ C', _current_modules (state (final (for_each disable_step l m))) = Some C'
        ∧ C ∖ list_to_set l ⊆ C' ∧ C' ⊆ C.
Proof.
  revert C m. induction l as [|x l IH]; intros C m HC; simpl.
  - exists C. split; [done | set_solver].
  - destruct (disable_step_bounds x C m HC) as (C1 & HC1 & Hlo & Hhi).
    unfold bind. destruct (result (disable_step x m)); simpl.
    + exists C1. split; [done | set_solver].
    + destruct (IH _ _ HC1) as (C2 & HC2 & Hlo2 & Hhi2).
      exists C2. split; [done | set_solver].
Qed.

Lemma enable_loop_bounds l C m :
  _current_modules (state m) = Some C →
  ∃ C', _current_modules (state (final (for_each enable_step l m))) = Some C'
        ∧ C ⊆ C' ∧ C' ⊆ C ∪ list_to_set l.
Proof.
  revert C m. induction l as [|x l IH]; intros C m HC; simpl.
  - exists C. split; [done | set_solver].
  - destruct (enable_step_bounds x C m HC) as (C1 & HC1 & Hlo & Hhi).
    unfold bind. destruct (result (enable_step x m)); simpl.
    + exists C1. split; [done | set_solver].
    + destruct (IH _ _ HC1) as (C2 & HC2 & Hlo2 & Hhi2).
      exists C2. split; [done | set_solver].
Qed.

(** A pass that returns has applied the desired set (for sharing). *)
Lemma pass_ok_modules config C m :
  _current_modules (state m) = Some C →
  result (on_config_changed config m) = inr tt →
  _current_modules (state (final (on_config_changed config m)))
  = Some (config_modules config).
Proof.
  intros HC. rewrite (on_config_changed_unfold _ _ _ HC).
  intros ([] & E1 & E2)%bind_inr.
  rewrite (bind_ok _ _ _ _ E1). simpl.
  rewrite keeps_modules_after_toggles. by apply toggle_modules_ok.
Qed.

(** A pass whose desired set is the applied set runs nothing that a test
    rejecting the enable commands, the readiness probe and the readiness
    event would count. *)
Lemma unchanged_pass_quiet config m (f : Effect → bool) :
  _current_modules (state m) = Some (config_modules config) →
  (∀ x, f (enable_cmd x) = false) →
  f is_active_cmd = false → f EmitApacheReady = false →
  count f (effects (on_config_changed config m)) = 0.
Proof.
  intros HC Hf Hq He.
  destruct (reconcile_unchanged_effects config m HC) as (post & E & Hpost & _).
  rewrite E, count_app.
  destruct (enable_loop_effects (set_iter (config_modules config)) m)
    as [[k Hk] _].
  rewrite !count_none; [done| |].
  - eapply Forall_impl; [exact Hpost|]. by intros e [-> | ->].
  - assert (Forall (λ e, f e = false)
              (map enable_cmd (set_iter (config_modules config)))) as Hall
      by (apply Forall_forall; intros e (x & -> & _)%list_elem_of_fmap; auto).
    rewrite Hk in Hall. by apply Forall_app in Hall as [? _].
Qed.

End PassOrder.

(** X12.  Within a pass every disabling comes before every enabling, and only the
    modules concerned are touched: the effects are, in this order, probes
    and disable commands of modules that are applied and not desired, then
    enable commands of desired modules, then the restart, the readiness
    probe and the readiness event. *)
Theorem reconcile_disables_before_enables {W : Type} `{!Platform W}
    (config : Config) (m : Machine W) (C : gset string) :
  _current_modules (state m) = Some C →
  let D := config_modules config in
  ∃ dis en rest,
    effects (on_config_changed config m) = dis ++ en ++ rest ∧
    Forall (λ e, ∃ x, x ∈ C ∧ (x ∉ D) ∧ (e = probe_cmd x ∨ e = disable_cmd x))
      dis ∧
    Forall (λ e, ∃ x, x ∈ D ∧ e = enable_cmd x) en ∧
    Forall (λ e, e = restart_cmd ∨ e = is_active_cmd ∨ e = EmitApacheReady)
      rest.
Proof.
  intros HC D. rewrite (on_config_changed_unfold _ _ _ HC). fold D.
  destruct (bind_effects (toggle_modules (C ∖ D) D)
              (λ _, after_toggles C D) m) as (rest & -> & Hrest).
  unfold toggle_modules.
  destruct (bind_effects (for_each disable_step (set_iter (C ∖ D)))
              (λ _, for_each enable_step (set_iter D)) m) as (en & -> & Hen).
  exists (effects (for_each disable_step (set_iter (C ∖ D)) m)), en, rest.
  split_and!.
  - by rewrite app_assoc.
  - apply emits_for_each_in. intros x Hx%elem_of_set_iter.
    apply elem_of_difference in Hx as [HxC HxD].
    apply emits_disable_step; exists x; auto.
  - destruct Hen as [-> | ([] & _ & ->)]; [constructor|].
    destruct (enable_loop_effects (set_iter D)
                (final (for_each disable_step (set_iter (C ∖ D)) m)))
      as [[k Hk] _].
    assert (Forall (λ e, ∃ x, x ∈ D ∧ e = enable_cmd x)
              (map enable_cmd (set_iter D))) as Hall.
    { apply Forall_forall. intros e (x & -> & Hx)%list_elem_of_fmap.
      exists x. split; [by apply elem_of_set_iter | done]. }
    rewrite Hk in Hall. by apply Forall_app in Hall as [? _].
  - destruct Hrest as [-> | ([] & _ & ->)]; [constructor|].
    apply emits_after_toggles; auto.
Qed.

Lemma reconcile_disables_before_enables_witness :
  let m := Scenario.machine {[ "ssl"; "headers" ]} None in
  let D := config_modules Scenario.web in
  ∃ dis en rest,
    effects (on_config_changed (Platform0 := Scenario.scripted Scenario.all_ok)
               Scenario.web m) = dis ++ en ++ rest ∧
    Forall (λ e, ∃ x, x ∈ ({[ "ssl"; "headers" ]} : gset string) ∧ (x ∉ D) ∧
                      (e = probe_cmd x ∨ e = disable_cmd x)) dis ∧
    Forall (λ e, ∃ x, x ∈ D ∧ e = enable_cmd x) en ∧
    Forall (λ e, e = restart_cmd ∨ e = is_active_cmd ∨ e = EmitApacheReady)
      rest.
Proof.
  intros m.
  exact (reconcile_disables_before_enables
           (Platform0 := Scenario.scripted Scenario.all_ok)
           Scenario.web m {[ "ssl"; "headers" ]} eq_refl).
Defined.

(** X13.  Whatever the outcome of a pass, even when it raises half way, the
    applied set it leaves lies between the modules that were applied and
    are still desired, and the modules that were applied or are desired: no
    desired module is dropped, no foreign module appears. *)
Theorem reconcile_partial_progress {W : Type} `{!Platform W}
    (config : Config) (m : Machine W) (C : gset string) :
  _current_modules (state m) = Some C →
  let D := config_modules config in
  ∃ C', _current_modules (state (final (on_config_changed config m)))
        = Some C' ∧
        C ∩ D ⊆ C' ∧ C' ⊆ C ∪ D.
Proof.
  intros HC D. rewrite (on_config_changed_unfold _ _ _ HC). fold D.
  assert (∃ C', _current_modules
                  (state (final (toggle_modules (C ∖ D) D m))) = Some C' ∧
                C ∩ D ⊆ C' ∧ C' ⊆ C ∪ D) as (C' & HC' & Hlo & Hhi).
  { unfold toggle_modules.
    destruct (disable_loop_bounds (set_iter (C ∖ D)) C m HC)
      as (C1 & HC1 & Hlo1 & Hhi1).
    rewrite list_to_set_set_iter in Hlo1.
    unfold bind. destruct (result (for_each disable_step _ m)); simpl.
    - exists C1. split; [done|]. split; [|set_solver].
      intros x [HxC HxD]%elem_of_intersection. apply Hlo1. set_solver.
    - destruct (enable_loop_bounds (set_iter D) C1 _ HC1)
        as (C2 & HC2 & Hlo2 & Hhi2).
      rewrite list_to_set_set_iter in Hhi2.
      exists C2. split; [done|]. split; [|set_solver].
      intros x [HxC HxD]%elem_of_intersection. apply Hlo2, Hlo1. set_solver. }
  exists C'. split; [|done].
  unfold bind. destruct (result (toggle_modules _ _ m)); simpl; [done|].
  by rewrite keeps_modules_after_toggles.
Qed.

Lemma reconcile_partial_progress_witness :
  let m := Scenario.machine {[ "ssl"; "headers" ]} None in
  let D := config_modules Scenario.web in
  ∃ C', _current_modules
          (state (final (on_config_changed
                           (Platform0 :=
                              Scenario.scripted (Scenario.failing "a2enmod" 1))
                           Scenario.web m))) = Some C' ∧
        {[ "ssl"; "headers" ]} ∩ D ⊆ C' ∧ C' ⊆ {[ "ssl"; "headers" ]} ∪ D.
Proof.
  intros m.
  exact (reconcile_partial_progress
           (Platform0 := Scenario.scripted (Scenario.failing "a2enmod" 1))
           Scenario.web m {[ "ssl"; "headers" ]} eq_refl).
Defined.

Section PassOutcome.

Context {W : Type} `{!Platform W}.

Implicit Types (m : Machine W) (C D : gset string).

(** A pass that returns ends with the readiness assessment. *)
Lemma pass_ok_ends_with_assess config C m :
  _current_modules (state m) = Some C →
  result (on_config_changed config m) = inr tt →
  ∃ pre m2,
    result (_assess_readiness m2) = inr tt ∧
    effects (on_config_changed config m)
    = pre ++ effects (_assess_readiness m2) ∧
    final (on_config_changed config m) = final (_assess_readiness m2).
Proof.
  intros HC. rewrite (on_config_changed_unfold _ _ _ HC).
  intros ([] & E1 & E2)%bind_inr.
  rewrite (bind_ok _ _ _ _ E1). simpl.
  unfold after_toggles in *.
  apply bind_inr in E2 as ([] & E3 & E4).
  rewrite (bind_ok _ _ _ _ E3). simpl.
  eexists _, _. split; [exact E4|]. split; [|done].
  by rewrite app_assoc.
Qed.

End PassOutcome.

(** X14.  Asking for no module at all: a pass that returns has probed every
    applied module once, in the order the set is walked, has enabled
    nothing, leaves the applied set empty, and has issued one restart if
    some module was applied. *)
Theorem reconcile_to_empty {W : Type} `{!Platform W}
    (config : Config) (m : Machine W) (C : gset string) :
  _current_modules (state m) = Some C →
  config_modules config = ∅ →
  result (on_config_changed config m) = inr tt →
  let run := on_config_changed config m in
  List.filter (runs "a2query") (effects run) = map probe_cmd (set_iter C) ∧
  count (runs "a2enmod") (effects run) = 0 ∧
  _current_modules (state (final run)) = Some ∅ ∧
  (C ≠ ∅ → count is_restart (effects run) = 1).
Proof.
  intros HC HD Hok run. subst run. split_and!.
  - revert Hok. rewrite (on_config_changed_unfold _ _ _ HC), HD.
    replace (C ∖ ∅) with C by set_solver.
    intros ([] & E1 & E2)%bind_inr.
    rewrite (bind_ok _ _ _ _ E1). simpl.
    unfold toggle_modules in *. rewrite set_iter_empty in *.
    apply bind_inr in E1 as ([] & E3 & _).
    rewrite (bind_ok _ _ _ _ E3). simpl.
    rewrite app_nil_r, List.filter_app, (disable_loop_probes _ _ E3).
    rewrite (filter_none (runs "a2query")); [by rewrite app_nil_r|].
    by apply emits_after_toggles.
  - destruct (reconcile_effects (λ e, runs "a2enmod" e = false ∨
                                      ∃ x, e = enable_cmd x) config C m HC)
      as (post & Hpre & Hpost & E); eauto.
    revert Hpre. rewrite (on_config_changed_unfold _ _ _ HC), HD.
    replace (C ∖ ∅) with C by set_solver. intros _.
    destruct (bind_effects (toggle_modules C ∅) (λ _, after_toggles C ∅) m)
      as (rest & -> & Hrest).
    unfold toggle_modules. rewrite set_iter_empty.
    destruct (bind_effects (for_each disable_step (set_iter C))
                (λ _, for_each enable_step []) m) as (en & -> & Hen).
    assert (en = []) as -> by (by destruct Hen as [-> | ([] & _ & ->)]).
    rewrite app_nil_r, count_app, !count_none; [done| |].
    + destruct Hrest as [-> | ([] & _ & ->)]; [constructor|].
      by apply emits_after_toggles.
    + apply emits_for_each. intros x. by apply emits_disable_step.
  - rewrite <- HD. by apply (pass_ok_modules _ C).
  - intros HCne.
    destruct (reconcile_restarts config C m HC)
      as (pre & post & Hpre & Hpost & E).
    assert (result (toggle_modules (C ∖ config_modules config)
                      (config_modules config) m) = inr tt) as Ht.
    { revert Hok. rewrite (on_config_changed_unfold _ _ _ HC).
      by intros ([] & ? & _)%bind_inr. }
    rewrite Ht, HD in E. rewrite decide_True in E.
    + rewrite E, !count_app, (count_none _ _ Hpre), (count_none _ _ Hpost).
      done.
    + unfold set_xor. intros Hx. apply HCne. set_solver.
Qed.

Lemma reconcile_to_empty_witness :
  let m := Scenario.machine {[ "ssl"; "headers" ]} None in
  let run := on_config_changed (Platform0 := Scenario.scripted Scenario.all_ok)
               (MkConfig " " "web") m in
  List.filter (runs "a2query") (effects run)
  = map probe_cmd (elements ({[ "ssl"; "headers" ]} : gset string)) ∧
  count (runs "a2enmod") (effects run) = 0 ∧
  _current_modules (state (final run)) = Some ∅ ∧
  (({[ "ssl"; "headers" ]} : gset string) ≠ ∅ →
   count is_restart (effects run) = 1).
Proof.
  intros m.
  exact (reconcile_to_empty (Platform0 := Scenario.scripted Scenario.all_ok)
           (MkConfig " " "web") m {[ "ssl"; "headers" ]} eq_refl
           ltac:(by vm_compute) ltac:(by vm_compute)).
Defined.

(** X15.  The pass converges: once a pass has returned, a second pass on the same
    configuration probes nothing, disables nothing and issues no
    restart. *)
Theorem reconcile_twice_is_quiet {W : Type} `{!Platform W}
    (config : Config) (m : Machine W) :
  result (on_config_changed config m) = inr tt →
  let again := on_config_changed config (final (on_config_changed config m)) in
  count (runs "a2query") (effects again) = 0 ∧
  count (runs "a2dismod") (effects again) = 0 ∧
  count is_restart (effects again) = 0 ∧
  (result again = inr tt →
   _current_modules (state (final again)) = Some (config_modules config)).
Proof.
  intros Hok again.
  destruct (_current_modules (state m)) as [C|] eqn:HC.
  2:{ revert Hok. unfold on_config_changed, bind, get_current_modules.
      by rewrite HC. }
  pose proof (pass_ok_modules _ _ _ HC Hok) as HD.
  subst again. split_and!.
  - by apply (unchanged_pass_quiet _ _ _ HD).
  - by apply (unchanged_pass_quiet _ _ _ HD).
  - by apply (unchanged_pass_quiet _ _ _ HD).
  - by apply (pass_ok_modules _ _ _ HD).
Qed.

Lemma reconcile_twice_is_quiet_witness :
  let m := Scenario.machine {[ "ssl"; "headers" ]} None in
  let again :=
    on_config_changed (Platform0 := Scenario.scripted Scenario.all_ok)
      Scenario.web
      (final (on_config_changed
                (Platform0 := Scenario.scripted Scenario.all_ok)
                Scenario.web m)) in
  count (runs "a2query") (effects again) = 0 ∧
  count (runs "a2dismod") (effects again) = 0 ∧
  count is_restart (effects again) = 0 ∧
  (result again = inr tt →
   _current_modules (state (final again))
   = Some (config_modules Scenario.web)).
Proof.
  intros m.
  apply (reconcile_twice_is_quiet
           (Platform0 := Scenario.scripted Scenario.all_ok) Scenario.web m).
  by vm_compute.
Defined.

(** X16.  A pass that returns has assessed readiness last: the readiness flag is
    set to what the probe said.  If it is true, the last effect is the
    [apache_ready] event and the unit status is active.  If it is false,
    the last effect is the probe, and a vhost relation event handled next
    is deferred and changes nothing. *)
Theorem reconcile_sets_ready {W : Type} `{!Platform W}
    (config : Config) (m : Machine W) :
  result (on_config_changed config m) = inr tt →
  let run := on_config_changed config m in
  (ready (state (final run)) = Some true ∧
   last (effects run) = Some EmitApacheReady ∧
   unit_status (final run) = ActiveStatus) ∨
  (ready (state (final run)) = Some false ∧
   last (effects run) = Some is_active_cmd ∧
   ∀ config' event,
     on_vhost_config_relation_changed config' event (final run)
     = MkRun [Defer] (inr tt) (final run)).
Proof.
  intros Hok run. subst run.
  destruct (_current_modules (state m)) as [C|] eqn:HC.
  2:{ revert Hok. unfold on_config_changed, bind, get_current_modules.
      by rewrite HC. }
  destruct (pass_ok_ends_with_assess _ _ _ HC Hok)
    as (pre & m2 & Ha & -> & ->).
  revert Ha. rewrite assess_run.
  destruct (run_process _ _) as [[rc|] w]; [|done].
  case_decide; simpl; intros _.
  - right. split_and!; [done | by rewrite last_snoc |].
    intros config' event.
    unfold on_vhost_config_relation_changed, bind, get_ready. done.
  - left. split_and!; [done | | done].
    replace (pre ++ [is_active_cmd; EmitApacheReady])
      with ((pre ++ [is_active_cmd]) ++ [EmitApacheReady])
      by (by rewrite <- app_assoc).
    by rewrite last_snoc.
Qed.

Lemma reconcile_sets_ready_witness :
  let m := Scenario.machine {[ "ssl"; "headers" ]} None in
  let run := on_config_changed (Platform0 := Scenario.scripted Scenario.all_ok)
               Scenario.web m in
  ready (state (final run)) = Some true ∧
  last (effects run) = Some EmitApacheReady ∧
  unit_status (final run) = ActiveStatus.
Proof.
  intros m.
  destruct (reconcile_sets_ready
              (Platform0 := Scenario.scripted Scenario.all_ok) Scenario.web m
              ltac:(by vm_compute)) as [H|[H _]]; [exact H|].
  by vm_compute in H.
Defined.

(** ** More on the vhost relation event *)

Section VhostEvent.

Context {W : Type} `{!Platform W}.

Implicit Types (m : Machine W) (config : Config) (v : Vhost).

Lemma keeps_state_ret {A} (a : A) : keeps_state (ret (W:=W) a).
Proof. by intros m. Qed.

Lemma keeps_state_raise {A} e : keeps_state (raise (W:=W) (A:=A) e).
Proof. by intros m. Qed.

Lemma keeps_state_bind {A B} (c : M W A) (k : A → M W B) :
  keeps_state c → (∀ a, keeps_state (k a)) → keeps_state (bind c k).
Proof.
  intros Hc Hk m. unfold bind.
  destruct (result (c m)); simpl; [apply Hc|].
  destruct (Hk a (final (c m))) as [-> ->]. apply Hc.
Qed.

Lemma keeps_state_for_each {A} (body : A → M W unit) l :
  (∀ a, keeps_state (body a)) → keeps_state (for_each body l).
Proof.
  intros Hb. induction l as [|a l IH]; simpl.
  - apply keeps_state_ret.
  - apply keeps_state_bind; auto.
Qed.

Lemma keeps_state_guarded argv e :
  keeps_state
    (try_except (W:=W) (subprocess_check_call argv) CalledProcessError
       (raise e)).
Proof.
  intros m. rewrite guarded_run. by destruct (run_process _ _) as [[rc|] w].
Qed.

Lemma keeps_state_systemd command name :
  keeps_state (_systemd_unit_command (W:=W) command name).
Proof.
  unfold _systemd_unit_command. case_decide; [|apply keeps_state_raise].
  apply keeps_state_bind.
  - intros m. unfold subprocess_call. by destruct (run_process _ _) as [[] ?].
  - intros rc. case_decide; [apply keeps_state_raise | apply keeps_state_ret].
Qed.

Lemma keeps_state_activate config v : keeps_state (activate_vhost config v).
Proof.
  unfold activate_vhost, getitem.
  destruct (template v); [|by intros m].
  apply keeps_state_bind; [apply keeps_state_ret|]. intros t.
  destruct (port v); [|by intros m].
  apply keeps_state_bind; [apply keeps_state_ret|]. intros p.
  apply keeps_state_bind; [|intros; apply keeps_state_guarded].
  intros m. rewrite create_vhost_run.
  destruct (b64decode_utf8 t); [|done].
  by destruct (write_file _ _ _) as [[] w].
Qed.

(** Past the readiness gate, all the handler does is write files, activate
    sites and reload. *)
Lemma bind_get_ready {B} (k : bool → M W B) b m :
  ready (state m) = Some b → bind get_ready k m = k b m.
Proof.
  intros Hr. unfold bind, get_ready. rewrite Hr. simpl. by destruct (k b m).
Qed.

Lemma emits_activate (P : Effect → Prop) config v :
  (∀ file text, P (WriteText file text)) →
  (∀ site, P (Spawn ["a2ensite"; site])) →
  emits P (activate_vhost config v).
Proof.
  intros Hw Hs m. pose proof (activate_vhost_effects config v m) as Hv.
  destruct (vhost_site config v) as [site|].
  - destruct Hv as [[k Hk] _].
    assert (Forall P (activation site)) as Hall
      by (unfold activation; by repeat constructor).
    rewrite Hk in Hall. by apply Forall_app in Hall as [? _].
  - destruct Hv as [-> _]. constructor.
Qed.

Lemma emits_vhost_ready (P : Effect → Prop) config event m :
  ready (state m) = Some true →
  (∀ file text, P (WriteText file text)) →
  (∀ site, P (Spawn ["a2ensite"; site])) → P reload_cmd →
  Forall P (effects (on_vhost_config_relation_changed config event m)).
Proof.
  intros Hr Hw Hs Hl. unfold on_vhost_config_relation_changed.
  rewrite (bind_get_ready _ true m Hr). simpl.
  destruct (ev_unit event); [|constructor].
  destruct (ev_vhosts event); [|constructor].
  case_decide; [constructor|].
  apply emits_bind.
  - intros m'. unfold safe_load. destruct (yaml_safe_load _); constructor.
  - intros vhs. apply emits_bind.
    + apply emits_for_each. intros v. by apply emits_activate.
    + intros _ m'. rewrite (systemd_effects _ _ _ reload_supported).
      by repeat constructor.
Qed.

Lemma bind_assoc {A B C} (c : M W A) (k : A → M W B) (k' : B → M W C) m :
  bind (bind c k) k' m = bind c (λ a, bind (k a) k') m.
Proof.
  unfold bind. destruct (result (c m)); simpl; [done|].
  destruct (result (k _ _)); simpl; [done|]. by rewrite app_assoc.
Qed.

Lemma bind_ext {A B} (c : M W A) (k1 k2 : A → M W B) m :
  (∀ a m', k1 a m' = k2 a m') → bind c k1 m = bind c k2 m.
Proof.
  intros Hk. unfold bind. destruct (result (c m)); [done|]. by rewrite Hk.
Qed.

Lemma for_each_app {A} (body : A → M W unit) l1 l2 m :
  for_each body (l1 ++ l2) m
  = bind (for_each body l1) (λ _, for_each body l2) m.
Proof.
  revert m. induction l1 as [|a l1 IH]; intros m; simpl.
  - unfold bind, ret. simpl. by destruct (for_each body l2 m).
  - rewrite bind_assoc. apply bind_ext. intros _ m'. apply IH.
Qed.

Lemma activate_vhost_bad config v m :
  vhost_site config v = None →
  ∃ e, activate_vhost config v m = MkRun [] (inl e) m ∧
       (exn_class e = KeyError ∨ exn_class e = DecodeError).
Proof.
  unfold vhost_site, activate_vhost, getitem.
  destruct (template v) as [t|]; [|eauto].
  destruct (port v) as [p|]; [|eauto].
  destruct (b64decode_utf8 t) as [text|] eqn:Ht; [done|]. intros _.
  unfold bind, ret. simpl. rewrite create_vhost_run, Ht. simpl. eauto.
Qed.

End VhostEvent.

(** X17.  With readiness true, an event that carries no unit yet, or no [vhosts]
    payload, or an empty one, is skipped: the handler returns without
    deferring the event, without any effect and without changing the
    machine. *)
Theorem vhost_event_skipped {W : Type} `{!Platform W}
    (config : Config) (event : RelationEvent) (m : Machine W) :
  ready (state m) = Some true →
  ev_unit event = None ∨ ev_vhosts event = None ∨
  ev_vhosts event = Some EmptyString →
  on_vhost_config_relation_changed config event m = MkRun [] (inr tt) m.
Proof.
  intros Hr Hskip.
  unfold on_vhost_config_relation_changed, bind, get_ready. rewrite Hr. simpl.
  destruct (ev_unit event); [|done].
  destruct Hskip as [?|[-> | ->]]; done.
Qed.

Lemma vhost_event_skipped_witness :
  let m := Scenario.machine ∅ (Some true) in
  on_vhost_config_relation_changed
    (Platform0 := Scenario.scripted Scenario.all_ok)
    Scenario.web (MkEvent None (Some "vhosts")) m
  = MkRun [] (inr tt) m.
Proof.
  intros m.
  apply (vhost_event_skipped (Platform0 := Scenario.scripted Scenario.all_ok));
    [reflexivity | by left].
Defined.

(** X18.  The handler of the vhost relation event never changes the stored state
    nor the unit status, whatever it does outside; and it defers the event
    exactly when the readiness flag is false. *)
Theorem vhost_handler_keeps_state {W : Type} `{!Platform W}
    (config : Config) (event : RelationEvent) (m : Machine W) :
  let run := on_vhost_config_relation_changed config event m in
  state (final run) = state m ∧
  unit_status (final run) = unit_status m ∧
  (Defer ∈ effects run ↔ ready (state m) = Some false).
Proof.
  intros run. subst run.
  assert (keeps_state (on_vhost_config_relation_changed config event)) as Hk.
  { unfold on_vhost_config_relation_changed. apply keeps_state_bind.
    - intros m'. unfold get_ready. by destruct (ready (state m')).
    - intros [|]; simpl; [|by intros m'].
      destruct (ev_unit event); [|apply keeps_state_ret].
      destruct (ev_vhosts event); [|apply keeps_state_ret].
      case_decide; [apply keeps_state_ret|].
      apply keeps_state_bind.
      + unfold safe_load. destruct (yaml_safe_load _);
          [apply keeps_state_ret | apply keeps_state_raise].
      + intros vhs. apply keeps_state_bind.
        * apply keeps_state_for_each. intros v. apply keeps_state_activate.
        * intros _. apply keeps_state_systemd. }
  destruct (Hk m) as [Hs Hu]. split_and!; [done | done |].
  destruct (ready (state m)) as [[|]|] eqn:Hr.
  - split; [|done]. intros Hin.
    pose proof (emits_vhost_ready (λ e, e ≠ Defer) config event m Hr) as Hall.
    rewrite Forall_forall in Hall. by destruct (Hall ltac:(done) ltac:(done)
      ltac:(done) _ Hin).
  - split; [done|]. intros _.
    unfold on_vhost_config_relation_changed, bind, get_ready. rewrite Hr.
    simpl. by left.
  - split; [|done].
    unfold on_vhost_config_relation_changed, bind, get_ready. rewrite Hr.
    simpl. by intros ?%elem_of_nil.
Qed.

(** X19.  An entry of the payload that lacks its template or its port, or whose
    template does not decode, stops the batch where it stands: the entries
    before it stay written and activated, nothing is done for it nor for
    the entries after it, no reload is issued, and the handler raises
    [KeyError] or the decoding error. *)
Theorem vhost_batch_stops_at_bad_entry {W : Type} `{!Platform W}
    (config : Config) (event : RelationEvent) (m : Machine W)
    (u payload : string) (good rest : list Vhost) (bad : Vhost) :
  ready (state m) = Some true →
  ev_unit event = Some u →
  ev_vhosts event = Some payload → payload ≠ EmptyString →
  yaml_safe_load payload = Some (good ++ bad :: rest) →
  result (for_each (activate_vhost config) good m) = inr tt →
  vhost_site config bad = None →
  let run := on_vhost_config_relation_changed config event m in
  ∃ sites,
    Forall2 (λ v site, vhost_site config v = Some site) good sites ∧
    effects run = concat (map activation sites) ∧
    count is_reload (effects run) = 0 ∧
    ∃ e, result run = inl e ∧
         (exn_class e = KeyError ∨ exn_class e = DecodeError).
Proof.
  intros Hr Hu Hp Hne Hy Hok Hbad run. subst run.
  rewrite (vhost_handler_applying _ _ _ _ _ _ Hr Hu Hp Hne Hy).
  destruct (activate_loop_ok _ _ _ Hok) as (sites & Hsites & He).
  destruct (activate_vhost_bad config bad
              (final (for_each (activate_vhost config) good m)) Hbad)
    as (e & Hrun & Hclass).
  assert (for_each (activate_vhost config) (good ++ bad :: rest) m
          = MkRun (concat (map activation sites)) (inl e)
              (final (for_each (activate_vhost config) good m))) as Hloop.
  { rewrite for_each_app, (bind_ok _ _ _ _ Hok). simpl.
    unfold bind. rewrite Hrun. simpl. by rewrite He, app_nil_r. }
  unfold bind. rewrite Hloop. simpl.
  exists sites. split_and!; [done | done | | by eauto].
  rewrite (count_activations is_reload sites 0) by (intros; by vm_compute).
  done.
Qed.

Lemma vhost_batch_stops_at_bad_entry_witness :
  let bad_port :=
    Scenario.MkScript (λ _, Exited 0) (λ _, true)
      (λ _, Some (Scenario.two_vhosts ++ [MkVhost (Some "x") None None]))
      Scenario.example_decoded in
  let m := Scenario.machine ∅ (Some true) in
  let run := on_vhost_config_relation_changed
               (Platform0 := Scenario.scripted bad_port)
               Scenario.web Scenario.peer_event m in
  ∃ sites,
    Forall2 (λ v site,
               vhost_site (Platform0 := Scenario.scripted bad_port)
                 Scenario.web v = Some site) Scenario.two_vhosts sites ∧
    effects run = concat (map activation sites) ∧
    count is_reload (effects run) = 0 ∧
    ∃ e, result run = inl e ∧
         (exn_class e = KeyError ∨ exn_class e = DecodeError).
Proof.
  intros bad_port m.
  exact (vhost_batch_stops_at_bad_entry
           (Platform0 := Scenario.scripted bad_port)
           Scenario.web Scenario.peer_event m "vhost/0" "vhosts"
           Scenario.two_vhosts [] (MkVhost (Some "x") None None)
           eq_refl eq_refl eq_refl ltac:(done) eq_refl
           ltac:(by vm_compute) eq_refl).
Defined.
